(** * The aggregation core of market_stats.py

    A shallow embedding of [get_total_price], [get_total_price_by_name] and
    [get_total_price_by_month], with the pieces of the Python runtime they
    lean on: insertion-ordered dictionaries, [sorted], [datetime.replace],
    [strftime] / [strptime] for the format "%Y-%b".

    Conventions.
    - A Python [dict] is an association list in insertion order with
      pairwise distinct keys: assigning to a present key rewrites the entry
      in place, assigning to an absent key appends.
    - A [datetime] is the triple year, month, day.  [read_file] builds both
      dates with [strptime(_, "%d %b %Y")], so the time of day is always
      midnight and is not carried around.
    - [price] is declared a [float]; the code only uses [+] and [<] on it.
      The class [Number] collects these.  Its instance for binary64
      [float] is the arithmetic of the code.  Its instance for Python's
      [int] is that of [get_total_price] and [get_total_price_by_name] on
      integer prices, and stands for arithmetic without rounding; the
      buckets of [get_total_price_by_month] start from the float [0.0], so
      there only the [float] instance is the code's arithmetic.
    - A string holds characters below U+0100.
    - A call that can raise returns an [outcome]; the [while] loop takes a
      bound on its number of iterations and answers [OutOfFuel] if the bound
      is hit before the loop condition turns false. *)

From Stdlib Require Import ZArith List String Ascii Bool Lia.
From Stdlib Require Import Permutation Sorted Floats.
Import ListNotations.

Open Scope string_scope.
Open Scope list_scope.
Open Scope Z_scope.

(** ** Outcomes of a call *)

Inductive exn : Type :=
| ValueError.

Inductive outcome (A : Type) : Type :=
| Returned (a : A)
| Raised (e : exn)
| OutOfFuel.

Arguments Returned {A} a.
Arguments Raised {A} e.
Arguments OutOfFuel {A}.

Definition bind {A B : Type} (c : outcome A) (k : A -> outcome B) : outcome B :=
  match c with
  | Returned a => k a
  | Raised e => Raised e
  | OutOfFuel => OutOfFuel
  end.

Notation "x <- c ;; k" := (bind c (fun x => k))
  (at level 61, c at next level, right associativity).

(** ** Numbers

    The operations the aggregator applies to a price: [+], the [0] that
    [sum] starts from, and the comparison [<] that [sorted] uses.  [leb] is
    Python's [<=], needed only to state orderings. *)

Class Number (P : Type) : Type := {
  add : P -> P -> P;
  zero : P;
  ltb : P -> P -> bool;
  leb : P -> P -> bool
}.

#[global] Instance int_Number : Number Z := {
  add := Z.add;
  zero := 0;
  ltb := Z.ltb;
  leb := Z.leb
}.

#[global] Instance float_Number : Number float := {
  add := PrimFloat.add;
  zero := 0%float;
  ltb := PrimFloat.ltb;
  leb := PrimFloat.leb
}.

(** What exact arithmetic gives and rounding takes away. *)
Record ExactAdd (P : Type) `{Number P} : Prop := {
  add_assoc : forall a b c : P, add a (add b c) = add (add a b) c;
  add_comm : forall a b : P, add a b = add b a;
  add_zero_l : forall a : P, add zero a = a
}.

(** [<] and [<=] describe one total order. *)
Record TotalOrder (P : Type) `{Number P} : Prop := {
  ltb_asym : forall a b : P, ltb a b = true -> ltb b a = false;
  ltb_trans : forall a b c : P, ltb a b = true -> ltb b c = true -> ltb a c = true;
  leb_total : forall a b : P, ltb a b = false -> leb b a = true
}.

(** What [<] and [<=] give on every kind of number, NaN included: [<] never
    holds both ways, and of two values that compare to themselves, which
    all but NaN do, one is [<=] the other. *)
Record Comparison (P : Type) `{Number P} : Prop := {
  lt_asym : forall a b : P, ltb a b = true -> ltb b a = false;
  le_total : forall a b : P,
      leb a a = true -> leb b b = true -> ltb a b = false -> leb b a = true
}.

(** ** Dictionaries in insertion order *)

Definition dict (V : Type) : Type := list (string * V).

Definition keys {V : Type} (d : dict V) : list string := map fst d.

(** [d.get(k)], also the test [k in d]. *)
Fixpoint dict_get {V : Type} (d : dict V) (k : string) : option V :=
  match d with
  | [] => None
  | (k', v) :: r => if String.eqb k' k then Some v else dict_get r k
  end.

(** [d[k] = v] *)
Fixpoint dict_set {V : Type} (d : dict V) (k : string) (v : V) : dict V :=
  match d with
  | [] => [(k, v)]
  | (k', v') :: r =>
      if String.eqb k' k then (k', v) :: r else (k', v') :: dict_set r k v
  end.

(** [d[k]] on a [defaultdict]: a missing key is first stored with the
    default value. *)
Definition defaultdict_getitem {V : Type} (default : V) (d : dict V) (k : string)
  : V * dict V :=
  match dict_get d k with
  | Some v => (v, d)
  | None => (default, dict_set d k default)
  end.

(** [dict(pairs)]: the pairs are stored one after the other. *)
Definition dict_from_items {V : Type} (pairs : list (string * V)) : dict V :=
  fold_left (fun d kv => dict_set d (fst kv) (snd kv)) pairs [].

(** ** [sorted]

    [sorted] is stable and compares keys with [<] only.  The keys are
    computed once, before any comparison.  With [reverse=True] the list is
    reversed, sorted ascending and reversed again, which keeps equal keys in
    their original order.  On keys that [<] orders totally every stable sort
    returns the same list, so insertion stands for CPython's merge sort
    there.  Among keys with a NaN, which [<] does not order, the result
    of a sort depends on the comparisons it happens to make, and insertion
    need not return the list that CPython returns. *)

Section Sorted.
Context {K A : Type}.
Variable klt : K -> K -> bool.

Fixpoint insert_by (x : K * A) (l : list (K * A)) : list (K * A) :=
  match l with
  | [] => [x]
  | y :: r => if klt (fst y) (fst x) then y :: insert_by x r else x :: y :: r
  end.

Definition stable_sort (l : list (K * A)) : list (K * A) :=
  fold_right insert_by [] l.

Definition sort_decorated (reverse : bool) (l : list (K * A)) : list A :=
  map snd (if reverse then rev (stable_sort (rev l)) else stable_sort l).

(** [sorted(l, key=key, reverse=reverse)] for a key that cannot raise. *)
Definition py_sorted (key : A -> K) (reverse : bool) (l : list A) : list A :=
  sort_decorated reverse (map (fun x => (key x, x)) l).

Fixpoint decorate (key : A -> outcome K) (l : list A) : outcome (list (K * A)) :=
  match l with
  | [] => Returned []
  | x :: r =>
      k <- key x ;;
      kr <- decorate key r ;;
      Returned ((k, x) :: kr)
  end.

(** [sorted(l, key=key, reverse=reverse)] for a key that may raise. *)
Definition py_sorted_raising (key : A -> outcome K) (reverse : bool) (l : list A)
  : outcome (list A) :=
  kl <- decorate key l ;;
  Returned (sort_decorated reverse kl).
End Sorted.

(** [sum(l)]: the accumulator starts at [0] and takes the elements from left
    to right.  (From CPython 3.12 on, [sum] over floats also carries a
    compensation term for the rounding errors; this only concerns the
    [float] instance.) *)
Definition py_sum {P : Type} `{Number P} (l : list P) : P :=
  fold_left add l zero.

(** ** datetime *)

Record datetime : Type := mk_datetime {
  year : Z;
  month : Z;
  day : Z
}.

Definition MINYEAR : Z := 1.
Definition MAXYEAR : Z := 9999.

Definition is_leap (y : Z) : bool :=
  (y mod 4 =? 0) && (negb (y mod 100 =? 0) || (y mod 400 =? 0)).

Definition days_in_month (y m : Z) : Z :=
  if m =? 2 then (if is_leap y then 29 else 28)
  else if (m =? 4) || (m =? 6) || (m =? 9) || (m =? 11) then 30
  else 31.

(** The check every [datetime] constructor runs. *)
Definition check_date_fields (y m d : Z) : bool :=
  (MINYEAR <=? y) && (y <=? MAXYEAR) &&
  (1 <=? m) && (m <=? 12) &&
  (1 <=? d) && (d <=? days_in_month y m).

Definition valid_datetime (d : datetime) : bool :=
  check_date_fields (year d) (month d) (day d).

Definition datetime_new (y m d : Z) : outcome datetime :=
  if check_date_fields y m d then Returned (mk_datetime y m d)
  else Raised ValueError.

(** [self.replace(year=..., month=..., day=...)]; [None] keeps the field. *)
Definition replace (self : datetime) (y m d : option Z) : outcome datetime :=
  datetime_new
    (match y with Some v => v | None => year self end)
    (match m with Some v => v | None => month self end)
    (match d with Some v => v | None => day self end).

Definition datetime_compare (a b : datetime) : comparison :=
  match year a ?= year b with
  | Eq => match month a ?= month b with
          | Eq => day a ?= day b
          | c => c
          end
  | c => c
  end.

Definition datetime_lt (a b : datetime) : bool :=
  match datetime_compare a b with Lt => true | _ => false end.

Definition datetime_le (a b : datetime) : bool :=
  match datetime_compare a b with Gt => false | _ => true end.

(** *** strftime("%Y-%b") and strptime(_, "%Y-%b")

    [strftime] hands "%Y" to the C library, which writes the year in
    decimal without leading zeros (as glibc does; later CPython versions
    fill the year to four digits themselves); [strptime] wants exactly four
    digits.  Month names are those of the C locale. *)

Definition digit_char (d : Z) : ascii := ascii_of_nat (Z.to_nat (48 + d)).

Definition digit_value (c : ascii) : option Z :=
  let n := Z.of_nat (nat_of_ascii c) in
  if (48 <=? n) && (n <=? 57) then Some (n - 48) else None.

(** A year in four digits, zero filled. *)
Definition year_text (y : Z) (rest : string) : string :=
  String (digit_char (y / 1000 mod 10))
    (String (digit_char (y / 100 mod 10))
       (String (digit_char (y / 10 mod 10))
          (String (digit_char (y mod 10)) rest))).

(** "%Y" in [strftime]: as many digits as the year has. *)
Definition format_Y (y : Z) (rest : string) : string :=
  if y <? 10 then String (digit_char y) rest
  else if y <? 100
  then String (digit_char (y / 10)) (String (digit_char (y mod 10)) rest)
  else if y <? 1000
  then String (digit_char (y / 100))
         (String (digit_char (y / 10 mod 10))
            (String (digit_char (y mod 10)) rest))
  else year_text y rest.

Definition month_abbrs : list string :=
  ["Jan"; "Feb"; "Mar"; "Apr"; "May"; "Jun";
   "Jul"; "Aug"; "Sep"; "Oct"; "Nov"; "Dec"].

Definition format_b (m : Z) : string :=
  nth (Z.to_nat (m - 1)) month_abbrs "".

Definition strftime_Y_b (d : datetime) : string :=
  format_Y (year d) (String "-" (format_b (month d))).

Definition lower (c : ascii) : ascii :=
  let n := nat_of_ascii c in
  if (65 <=? n)%nat && (n <=? 90)%nat then ascii_of_nat (n + 32) else c.

Fixpoint lower_string (s : string) : string :=
  match s with
  | EmptyString => EmptyString
  | String c r => String (lower c) (lower_string r)
  end.

(** Position (from 1) of the month whose name is [s], letter case ignored. *)
Fixpoint find_month (s : string) (names : list string) (m : Z) : option Z :=
  match names with
  | [] => None
  | n :: r =>
      if String.eqb (lower_string n) (lower_string s) then Some m
      else find_month s r (m + 1)
  end.

Definition parse_b (s : string) : option Z := find_month s month_abbrs 1.

(** The directive "%Y" takes exactly four digits; the day defaults to 1; the
    date is built by the [datetime] constructor, which refuses year 0. *)
Definition strptime_Y_b (s : string) : outcome datetime :=
  match s with
  | String c3 (String c2 (String c1 (String c0 (String "-" rest)))) =>
      match digit_value c3, digit_value c2, digit_value c1, digit_value c0,
            parse_b rest with
      | Some d3, Some d2, Some d1, Some d0, Some m =>
          datetime_new (1000 * d3 + 100 * d2 + 10 * d1 + d0) m 1
      | _, _, _, _, _ => Raised ValueError
      end
  | _ => Raised ValueError
  end.

(** ** The aggregator *)

Section Aggregator.
Context {P : Type} `{Number P}.

Record MarketItem : Type := mk_MarketItem {
  name : string;
  price : P;
  currency : string;
  listed_on : datetime;
  acted_on : datetime
}.

Definition get_total_price (items : list MarketItem) : P :=
  py_sum (map price items).

(** Body of the [for] loop of [get_total_price_by_name]. *)
Definition by_name_step (totals : dict (P * nat)) (item : MarketItem)
  : dict (P * nat) :=
  match dict_get totals (name item) with
  | Some (total_price, count) =>
      dict_set totals (name item) (add total_price (price item), (count + 1)%nat)
  | None =>
      dict_set totals (name item) (price item, 1%nat)
  end.

Definition get_total_price_by_name (items : list MarketItem) : dict (P * nat) :=
  let totals := fold_left by_name_step items [] in
  let sorted_totals :=
    dict_from_items (py_sorted ltb (fun x => fst (snd x)) true totals) in
  sorted_totals.

(** Body of the [while] loop up to the cursor update:
    [total_price, count = totals[month_str]] and
    [totals[month_str] = (total_price + item.price, count + 1)].  A missing
    bucket starts at the float [0.0] and the count [0]: the [zero] of the
    [float] instance. *)
Definition accrue (p : P) (totals : dict (P * nat)) (month_str : string)
  : dict (P * nat) :=
  let '((total_price, count), totals) :=
    defaultdict_getitem (zero, 0%nat) totals month_str in
  dict_set totals month_str (add total_price p, (count + 1)%nat).

(** The cursor update at the end of the [while] body. *)
Definition next_month (current : datetime) : outcome datetime :=
  if month current =? 12
  then replace current (Some (year current + 1)) (Some 1) None
  else replace current None (Some (month current + 1)) None.

(** The [while current <= end] loop; one unit of fuel per iteration. *)
Fixpoint month_walk (fuel : nat) (p : P) (current end_ : datetime)
    (totals : dict (P * nat)) : outcome (dict (P * nat)) :=
  if datetime_le current end_ then
    match fuel with
    | O => OutOfFuel
    | S fuel' =>
        let month_str := strftime_Y_b current in
        let totals := accrue p totals month_str in
        current <- next_month current ;;
        month_walk fuel' p current end_ totals
    end
  else Returned totals.

(** Body of the [for] loop of [get_total_price_by_month]. *)
Definition by_month_step (fuel : nat) (totals : dict (P * nat)) (item : MarketItem)
  : outcome (dict (P * nat)) :=
  current <- replace (listed_on item) None None (Some 1) ;;
  end_ <- replace (acted_on item) None None (Some 1) ;;
  month_walk fuel (price item) current end_ totals.

(** The [for] loop; every record's [while] loop gets the same bound. *)
Fixpoint by_month_loop (fuel : nat) (items : list MarketItem)
    (totals : dict (P * nat)) : outcome (dict (P * nat)) :=
  match items with
  | [] => Returned totals
  | item :: rest =>
      totals <- by_month_step fuel totals item ;;
      by_month_loop fuel rest totals
  end.

Definition get_total_price_by_month (fuel : nat) (items : list MarketItem)
  : outcome (dict (P * nat)) :=
  totals <- by_month_loop fuel items [] ;;
  sorted_totals <-
    py_sorted_raising datetime_lt (fun x => strptime_Y_b (fst x)) false totals ;;
  Returned (dict_from_items sorted_totals).
End Aggregator.

Arguments MarketItem P : clear implicits.
Arguments mk_MarketItem {P} name price currency listed_on acted_on.

(** ** Vocabulary of the statements *)

(** [a] and [b] are neighbours, in this order, in [l]. *)
Definition adjacent {A : Type} (a b : A) (l : list A) : Prop :=
  exists l1 l2, l = l1 ++ a :: b :: l2.

(** [b], coming after [a], does not have a strictly smaller key. *)
Definition ascending {K A : Type} (klt : K -> K -> bool) (a b : K * A) : Prop :=
  klt (fst b) (fst a) = false.

(** Months counted from year 0: the [year*12 + month] of the specification. *)
Definition month_index (d : datetime) : Z := year d * 12 + month d.

Definition month_of_index (i : Z) : datetime :=
  mk_datetime ((i - 1) / 12) ((i - 1) mod 12 + 1) 1.

Definition DEC_9999 : Z := MAXYEAR * 12 + 12.

(** Labels of the [n] consecutive months that start at month [from]. *)
Definition month_labels (from : Z) (n : nat) : list string :=
  map (fun j => strftime_Y_b (month_of_index (from + Z.of_nat j))) (seq 0 n).

(** A first day of a month that [datetime] can represent. *)
Definition cursor (d : datetime) : Prop :=
  MINYEAR <= year d <= MAXYEAR /\ 1 <= month d <= 12 /\ day d = 1.

(** Reads a label back whatever the number of its digits (unlike
    [strptime]): the digits up to the dash, then the month name. *)
Fixpoint read_digits (s : string) (acc : Z) : Z * string :=
  match s with
  | EmptyString => (acc, EmptyString)
  | String c r =>
      match digit_value c with
      | Some k => read_digits r (10 * acc + k)
      | None => (acc, s)
      end
  end.

Definition decode_label (s : string) : option (Z * Z) :=
  match read_digits s 0 with
  | (y, String _ r) =>
      match parse_b r with
      | Some m => Some (y, m)
      | None => None
      end
  | (_, EmptyString) => None
  end.

(** First month of the year 1000, the first whose label [strptime] reads. *)
Definition JAN_1000 : Z := 1000 * 12 + 1.

(** The label of a month from the year 1000 on. *)
Definition is_long_label (k : string) : Prop :=
  exists i, JAN_1000 <= i <= DEC_9999 /\ k = strftime_Y_b (month_of_index i).

(** A key of the summary by month: the label of a month that a [datetime]
    can hold. *)
Definition is_month_label (k : string) : Prop :=
  exists i, 13 <= i <= DEC_9999 /\ k = strftime_Y_b (month_of_index i).

Section Vocabulary.
Context {P : Type} `{Number P}.

(** The number [k] of months a record spans. *)
Definition span_months (item : MarketItem P) : Z :=
  month_index (acted_on item) - month_index (listed_on item) + 1.

(** Records that [get_total_price_by_month] gets through with [fuel]
    iterations per record. *)
Definition walkable (fuel : nat) (item : MarketItem P) : Prop :=
  valid_datetime (listed_on item) = true /\
  valid_datetime (acted_on item) = true /\
  (Z.to_nat (span_months item) <= fuel)%nat /\
  (span_months item <= 0 \/
   (month_index (acted_on item) <> DEC_9999 /\ 1000 <= year (listed_on item))).

(** What reading [totals[k]] on the [defaultdict] gives. *)
Definition bucket (totals : dict (P * nat)) (k : string) : P * nat :=
  match dict_get totals k with
  | Some v => v
  | None => (zero, 0%nat)
  end.

(** Prices of the records called [n], in input order. *)
Definition prices_named (n : string) (items : list (MarketItem P)) : list P :=
  map price (filter (fun x => String.eqb (name x) n) items).

(** Sum of a non-empty list taken from left to right, first element first. *)
Definition sum_in_order (l : list P) : P :=
  match l with
  | [] => zero
  | p :: ps => fold_left add ps p
  end.

(** Sum of the total-price column of a summary. *)
Definition sum_of_totals (m : dict (P * nat)) : P :=
  py_sum (map (fun e => fst (snd e)) m).

(** Sum of the count column of a summary. *)
Definition sum_of_counts (m : dict (P * nat)) : nat :=
  list_sum (map (fun e => snd (snd e)) m).

(** The entry a name with the prices [l] must have: none without a record. *)
Definition summary_entry (l : list P) : option (P * nat) :=
  match l with
  | [] => None
  | _ :: _ => Some (sum_in_order l, List.length l)
  end.


(** The mathematical sum, for arithmetic that does not round. *)
Definition exact_sum (l : list P) : P := fold_right add zero l.
End Vocabulary.

(** ** Sample inputs *)

(** Listed in January 2024 and sold in March: three months. *)
Definition key_item : MarketItem Z :=
  mk_MarketItem "Key" 10 "USD" (mk_datetime 2024 1 1) (mk_datetime 2024 3 1).

(** Integer prices: three names, one of them twice. *)
Definition sample_items : list (MarketItem Z) :=
  [mk_MarketItem "Sword" 5 "USD" (mk_datetime 2024 1 15) (mk_datetime 2024 1 20);
   key_item;
   mk_MarketItem "Sword" 7 "USD" (mk_datetime 2023 12 30) (mk_datetime 2024 2 2);
   mk_MarketItem "Case" 20 "EUR" (mk_datetime 2024 2 10) (mk_datetime 2024 2 11)].


(** Float prices whose sum depends on the order of the additions:
    1.0 + 2^53 is rounded back to 2^53, while (1.0 + 1.0) + 2^53 is exact. *)
Definition rounding_items : list (MarketItem float) :=
  [mk_MarketItem "a" 1%float "USD" (mk_datetime 2024 1 1) (mk_datetime 2024 1 2);
   mk_MarketItem "b" 1%float "USD" (mk_datetime 2024 1 1) (mk_datetime 2024 1 2);
   mk_MarketItem "a" 9007199254740992%float "USD"
     (mk_datetime 2024 1 1) (mk_datetime 2024 1 2)].

(** Equal totals: the two names at 5 tie. *)
Definition tied_items : list (MarketItem Z) :=
  [mk_MarketItem "Case" 5 "USD" (mk_datetime 2024 1 1) (mk_datetime 2024 1 2);
   mk_MarketItem "Key" 7 "USD" (mk_datetime 2024 1 1) (mk_datetime 2024 1 2);
   mk_MarketItem "Sword" 5 "USD" (mk_datetime 2024 1 1) (mk_datetime 2024 1 2)].

(** A record that starts after it ends, within one month. *)
Definition backdated_item : MarketItem Z :=
  mk_MarketItem "Key" 10 "USD" (mk_datetime 2024 3 20) (mk_datetime 2024 3 10).

(** A record that ends in the month before the one it starts in. *)
Definition reversed_item : MarketItem Z :=
  mk_MarketItem "Key" 10 "USD" (mk_datetime 2024 3 20) (mk_datetime 2024 2 25).

(** Records that end in the last month a [datetime] can hold. *)
Definition last_month_item : MarketItem Z :=
  mk_MarketItem "Key" 10 "USD" (mk_datetime 9999 12 1) (mk_datetime 9999 12 31).

Definition last_months_item : MarketItem Z :=
  mk_MarketItem "Key" 10 "USD" (mk_datetime 9999 11 15) (mk_datetime 9999 12 31).

(** ** The loader: one field of [read_file]

    [read_file] reads the dates with
    [datetime.strptime(x.get(key).strip(), "%d %b %Y")].  [strptime] turns
    the format into the regular expression
    [(3[0-1]|[1-2]\d|0[1-9]|[1-9]| [1-9])\s+(jan|...|dec)\s+(\d\d\d\d)],
    matched without regard to letter case against the whole text, and hands
    the three numbers to the [datetime] constructor.  Below U+0100 the
    blanks of [str.strip] and of [\s] are the same characters, and the
    digits of [\d] are 0 to 9. *)

(** [str.isspace], also the class [\s]: the ASCII blanks and separators,
    next line (U+0085) and the no-break space (U+00A0). *)
Definition is_space (c : ascii) : bool :=
  let n := nat_of_ascii c in
  ((9 <=? n)%nat && (n <=? 13)%nat) || ((28 <=? n)%nat && (n <=? 32)%nat)
  || (n =? 133)%nat || (n =? 160)%nat.

Fixpoint lstrip (s : string) : string :=
  match s with
  | EmptyString => EmptyString
  | String c r => if is_space c then lstrip r else s
  end.

Fixpoint rstrip (s : string) : string :=
  match s with
  | EmptyString => EmptyString
  | String c r =>
      match rstrip r with
      | EmptyString => if is_space c then EmptyString else String c EmptyString
      | r' => String c r'
      end
  end.

(** [s.strip()] *)
Definition strip (s : string) : string := lstrip (rstrip s).

(** The ways the group for "%d" matches at the start of [s], in the order
    of its alternatives, each with the day and the text left over. *)
Definition day_candidates (s : string) : list (Z * string) :=
  match s with
  | EmptyString => []
  | String a r =>
      let two :=
        match r with
        | EmptyString => []
        | String b r' =>
            match digit_value a, digit_value b with
            | Some da, Some db =>
                (if (da =? 3) && (db <=? 1) then [(30 + db, r')] else []) ++
                (if (1 <=? da) && (da <=? 2) then [(10 * da + db, r')] else []) ++
                (if (da =? 0) && (1 <=? db) then [(db, r')] else [])
            | _, _ => []
            end
        end in
      let one :=
        match digit_value a with
        | Some da => if 1 <=? da then [(da, r)] else []
        | None => []
        end in
      let blank :=
        match r with
        | EmptyString => []
        | String b r' =>
            match digit_value b with
            | Some db => if Ascii.eqb a " " && (1 <=? db) then [(db, r')] else []
            | None => []
            end
        end in
      two ++ one ++ blank
  end.

(** [\s+]: at least one blank.  It takes all the blanks there are; giving
    one back cannot help, since what follows starts with a letter or a
    digit. *)
Definition blanks (s : string) : option string :=
  match s with
  | String c r => if is_space c then Some (lstrip r) else None
  | EmptyString => None
  end.

(** The group for "%b": three letters that name a month. *)
Definition month_group (s : string) : option (Z * string) :=
  match s with
  | String a (String b (String c r)) =>
      match parse_b (String a (String b (String c EmptyString))) with
      | Some m => Some (m, r)
      | None => None
      end
  | _ => None
  end.

(** The group for "%Y", which must end the text. *)
Definition year_group (s : string) : option Z :=
  match s with
  | String c3 (String c2 (String c1 (String c0 EmptyString))) =>
      match digit_value c3, digit_value c2, digit_value c1, digit_value c0 with
      | Some d3, Some d2, Some d1, Some d0 =>
          Some (1000 * d3 + 100 * d2 + 10 * d1 + d0)
      | _, _, _, _ => None
      end
  | _ => None
  end.

(** What has to follow the day: blanks, month, blanks, year, end. *)
Definition after_day (s : string) : option (Z * Z) :=
  match blanks s with
  | None => None
  | Some s1 =>
      match month_group s1 with
      | None => None
      | Some (m, s2) =>
          match blanks s2 with
          | None => None
          | Some s3 =>
              match year_group s3 with
              | None => None
              | Some y => Some (m, y)
              end
          end
      end
  end.

(** The first way to match the day that lets the rest match. *)
Fixpoint first_match (candidates : list (Z * string)) : option (Z * Z * Z) :=
  match candidates with
  | [] => None
  | (d, rest) :: others =>
      match after_day rest with
      | Some (m, y) => Some (y, m, d)
      | None => first_match others
      end
  end.

(** [datetime.strptime(s, "%d %b %Y")] *)
Definition strptime_d_b_Y (s : string) : outcome datetime :=
  match first_match (day_candidates s) with
  | Some (y, m, d) => datetime_new y m d
  | None => Raised ValueError
  end.

(** What [read_file] can raise. *)
Inductive load_exn : Type :=
| AttributeError
| DateValueError.

Inductive load_result (A : Type) : Type :=
| Loaded (a : A)
| LoadRaised (e : load_exn).

Arguments Loaded {A} a.
Arguments LoadRaised {A} e.

(** [datetime.strptime(x.get(key).strip(), "%d %b %Y")], where [field] is
    [x.get(key)]: [None] has no [strip]. *)
Definition read_file_date (field : option string) : load_result datetime :=
  match field with
  | None => LoadRaised AttributeError
  | Some s =>
      match strptime_d_b_Y (strip s) with
      | Returned d => Loaded d
      | _ => LoadRaised DateValueError
      end
  end.






(** ** Further vocabulary *)

(** [a] comes somewhere before [b] in [l]. *)
Definition precedes {A : Type} (a b : A) (l : list A) : Prop :=
  exists l1 l2 l3, l = l1 ++ a :: l2 ++ b :: l3.

(** The label [k] parses to an earlier month than the label [k']. *)
Definition label_before (k k' : string) : Prop :=
  exists a b,
    strptime_Y_b k = Returned a /\ strptime_Y_b k' = Returned b /\
    datetime_lt a b = true.

(** The distinct elements of [l], each at its first occurrence. *)
Fixpoint first_seen (l : list string) : list string :=
  match l with
  | [] => []
  | x :: r => x :: filter (fun y => negb (String.eqb x y)) (first_seen r)
  end.

(** The day of the month as the file writes it, with or without a leading
    zero. *)
Definition format_d (pad : bool) (d : Z) : string :=
  if d <? 10
  then (if pad then String "0" (String (digit_char d) EmptyString)
        else String (digit_char d) EmptyString)
  else String (digit_char (d / 10)) (String (digit_char (d mod 10)) EmptyString).

(** A date as the file writes it: day, month name, year. *)
Definition date_text (pad : bool) (d : datetime) : string :=
  (format_d pad (day d) ++ String " " (format_b (month d))
   ++ String " " (year_text (year d) EmptyString))%string.

Fixpoint all_space (s : string) : bool :=
  match s with
  | EmptyString => true
  | String c r => is_space c && all_space r
  end.

Section MonthVocabulary.
Context {P : Type} `{Number P}.

(** The labels of a summary with their counts, in the summary's order. *)
Definition label_counts (m : dict (P * nat)) : list (string * nat) :=
  map (fun e => (fst e, snd (snd e))) m.

(** The record is open in month [i]: between its listing and its sale. *)
Definition spans (i : Z) (item : MarketItem P) : bool :=
  (month_index (listed_on item) <=? i) && (i <=? month_index (acted_on item)).

(** Prices of the records open in month [i], in input order. *)
Definition prices_in_month (i : Z) (items : list (MarketItem P)) : list P :=
  map price (filter (spans i) items).

(** The bucket a month with the prices [l] must have: none without a record. *)
Definition month_entry (l : list P) : option (P * nat) :=
  match l with
  | [] => None
  | _ :: _ => Some (py_sum l, List.length l)
  end.

(** What a bucket holds after further prices [ps] were accrued to it. *)
Definition accrued (start : option (P * nat)) (ps : list P) : option (P * nat) :=
  match ps with
  | [] => start
  | _ :: _ =>
      let b := match start with Some v => v | None => (zero, 0%nat) end in
      Some (fold_left add ps (fst b), (snd b + List.length ps)%nat)
  end.

(** The record reaches December 9999 with at least one month to accrue. *)
Definition ends_in_last_month (item : MarketItem P) : Prop :=
  1 <= span_months item /\ month_index (acted_on item) = DEC_9999.

(** The record makes [get_total_price_by_month] raise: it has a month to
    accrue and either reaches December 9999, where the cursor cannot go on,
    or starts before the year 1000, where the label is not read back. *)
Definition raises_by_month (item : MarketItem P) : Prop :=
  1 <= span_months item /\
  (month_index (acted_on item) = DEC_9999 \/ year (listed_on item) < 1000).

(** The record has two dates, and at most [fuel] months. *)
Definition within (fuel : nat) (item : MarketItem P) : Prop :=
  valid_datetime (listed_on item) = true /\
  valid_datetime (acted_on item) = true /\
  (Z.to_nat (span_months item) <= fuel)%nat.

(** Every accrual of a list of records: the price of each record, once for
    each of its months. *)
Definition accruals (items : list (MarketItem P)) : list P :=
  flat_map (fun item => repeat (price item) (Z.to_nat (span_months item))) items.
End MonthVocabulary.

Section LoaderVocabulary.
Context {P : Type} `{Number P}.

End LoaderVocabulary.

(** Float prices, as [MarketItem] declares them. *)
Definition float_items : list (MarketItem float) :=
  [mk_MarketItem "Key" 10%float "USD" (mk_datetime 2024 1 1) (mk_datetime 2024 3 1);
   mk_MarketItem "Sword" 2.5%float "USD"
     (mk_datetime 2023 12 30) (mk_datetime 2024 1 2)].

(** A record of the year 999, as the file's "05 Mar 0999" gives it. *)
Definition year_999_item : MarketItem float :=
  mk_MarketItem "Key" 10%float "USD" (mk_datetime 999 3 5) (mk_datetime 999 3 6).


(** * Facts *)

(** ** Dictionaries *)

Section DictFacts.
Context {V : Type}.
Implicit Types (d : dict V) (k : string) (v : V).

Lemma dict_get_set_same d k v : dict_get (dict_set d k v) k = Some v.
Proof.
  induction d as [|[k' v'] r IH]; simpl.
  - now rewrite String.eqb_refl.
  - destruct (String.eqb k' k) eqn:E; simpl; rewrite E; auto.
Qed.

Lemma dict_get_set_other d k k' v :
  k' <> k -> dict_get (dict_set d k v) k' = dict_get d k'.
Proof.
  intros Hne. induction d as [|[k0 v0] r IH]; simpl.
  - destruct (String.eqb_spec k k'); congruence.
  - destruct (String.eqb_spec k0 k) as [->|Hk]; simpl.
    + destruct (String.eqb_spec k k'); congruence.
    + now rewrite IH.
Qed.

Lemma dict_get_None d k : dict_get d k = None <-> ~ In k (keys d).
Proof.
  induction d as [|[k' v'] r IH]; simpl.
  - tauto.
  - destruct (String.eqb_spec k' k) as [->|Hk].
    + split; [discriminate | tauto].
    + rewrite IH. tauto.
Qed.

Lemma keys_dict_set_present d k v :
  In k (keys d) -> keys (dict_set d k v) = keys d.
Proof.
  induction d as [|[k' v'] r IH]; simpl; [tauto|].
  intros Hin. destruct (String.eqb_spec k' k) as [->|Hk]; simpl; auto.
  f_equal. apply IH. destruct Hin; congruence.
Qed.

Lemma keys_dict_set_absent d k v :
  ~ In k (keys d) -> keys (dict_set d k v) = keys d ++ [k].
Proof.
  induction d as [|[k' v'] r IH]; simpl; auto.
  intros Hin. destruct (String.eqb_spec k' k) as [->|Hk]; simpl.
  - tauto.
  - f_equal. apply IH. tauto.
Qed.

Lemma In_keys_dict_set d k v k' :
  In k' (keys (dict_set d k v)) <-> In k' (keys d) \/ k' = k.
Proof.
  destruct (in_dec string_dec k (keys d)) as [Hin|Hin].
  - rewrite keys_dict_set_present by auto. split; [tauto|].
    intros [?| ->]; auto.
  - rewrite keys_dict_set_absent by auto. rewrite in_app_iff. simpl.
    intuition congruence.
Qed.

Lemma NoDup_keys_dict_set d k v :
  NoDup (keys d) -> NoDup (keys (dict_set d k v)).
Proof.
  intros Hnd. destruct (in_dec string_dec k (keys d)) as [Hin|Hin].
  - now rewrite keys_dict_set_present.
  - rewrite keys_dict_set_absent by auto.
    apply NoDup_app; auto.
    + constructor; [simpl; tauto | constructor].
    + intros x Hx [<-|[]]. contradiction.
Qed.

Lemma dict_get_In d k v :
  NoDup (keys d) -> (dict_get d k = Some v <-> In (k, v) d).
Proof.
  induction d as [|[k' v'] r IH]; simpl; intros Hnd.
  - split; [discriminate | tauto].
  - inversion Hnd as [|? ? Hnotin Hnd']; subst.
    destruct (String.eqb_spec k' k) as [->|Hk].
    + split.
      * intros [= ->]. auto.
      * intros [[= ->]|Hin]; auto.
        exfalso. apply Hnotin. apply (in_map fst) in Hin. exact Hin.
    + rewrite IH by auto. split; auto.
      intros [[= -> ->]|Hin]; [congruence | auto].
Qed.

Lemma dict_set_absent d k v : ~ In k (keys d) -> dict_set d k v = d ++ [(k, v)].
Proof.
  induction d as [|[k' v'] r IH]; simpl; auto.
  intros Hin. destruct (String.eqb_spec k' k) as [->|Hk]; [tauto|].
  f_equal. apply IH. tauto.
Qed.

Lemma dict_from_items_app (acc pairs : dict V) :
  NoDup (keys (acc ++ pairs)) ->
  fold_left (fun d kv => dict_set d (fst kv) (snd kv)) pairs acc = acc ++ pairs.
Proof.
  revert acc. induction pairs as [|[k v] r IH]; simpl; intros acc Hnd.
  - now rewrite app_nil_r.
  - assert (Hk : ~ In k (keys acc)).
    { unfold keys in *. rewrite map_app in Hnd. simpl in Hnd.
      apply NoDup_remove_2 in Hnd. rewrite in_app_iff in Hnd. tauto. }
    rewrite dict_set_absent by assumption.
    rewrite IH; rewrite <- app_assoc; simpl; auto.
Qed.

(** Pairs with distinct keys make the dictionary that lists them in order. *)
Lemma dict_from_items_NoDup (pairs : dict V) :
  NoDup (keys pairs) -> dict_from_items pairs = pairs.
Proof. intros Hnd. unfold dict_from_items. now rewrite dict_from_items_app. Qed.

Lemma dict_get_Permutation d d' k :
  NoDup (keys d) -> Permutation d d' -> dict_get d' k = dict_get d k.
Proof.
  intros Hnd Hp.
  assert (Hnd' : NoDup (keys d')).
  { eapply Permutation_NoDup; [apply Permutation_map; exact Hp | exact Hnd]. }
  destruct (dict_get d k) as [v|] eqn:E.
  - apply dict_get_In; auto. eapply Permutation_in; [exact Hp|].
    now apply dict_get_In.
  - apply dict_get_None. apply dict_get_None in E. intro Hin. apply E.
    eapply Permutation_in; [apply Permutation_map, Permutation_sym; exact Hp|].
    exact Hin.
Qed.
End DictFacts.

(** ** Neighbours in a list *)

Lemma adjacent_rev {B : Type} (a b : B) l : adjacent a b (rev l) -> adjacent b a l.
Proof.
  intros (l1 & l2 & E). exists (rev l2), (rev l1).
  rewrite <- (rev_involutive l), E, rev_app_distr. simpl.
  now rewrite <- !app_assoc.
Qed.

Lemma adjacent_map {B C : Type} (f : B -> C) (a b : C) l :
  adjacent a b (map f l) ->
  exists a' b', a = f a' /\ b = f b' /\ adjacent a' b' l.
Proof.
  intros (l1 & l2 & E).
  apply map_eq_app in E. destruct E as (m1 & m2 & -> & <- & E).
  apply map_eq_cons in E. destruct E as (a' & m3 & -> & <- & E).
  apply map_eq_cons in E. destruct E as (b' & m4 & -> & <- & <-).
  exists a', b'. repeat split. now exists m1, m4.
Qed.

Lemma adjacent_In {B : Type} (a b : B) l : adjacent a b l -> In a l /\ In b l.
Proof.
  intros (l1 & l2 & ->). rewrite !in_app_iff. simpl. tauto.
Qed.

(** ** Sorting *)

Section SortedFacts.
Context {K A : Type}.
Variable klt : K -> K -> bool.
Hypothesis klt_asym : forall a b, klt a b = true -> klt b a = false.

Implicit Types (l : list (K * A)).
Local Abbreviation ascending := (ascending klt).

Lemma insert_by_Permutation (x : K * A) l : Permutation (insert_by klt x l) (x :: l).
Proof.
  induction l as [|y r IH]; simpl; auto.
  destruct (klt (fst y) (fst x)); auto.
  rewrite IH. apply perm_swap.
Qed.

Lemma stable_sort_Permutation l : Permutation (stable_sort klt l) l.
Proof.
  induction l as [|x r IH]; simpl; auto.
  rewrite insert_by_Permutation. now constructor.
Qed.

Lemma sort_decorated_Permutation reverse l :
  Permutation (sort_decorated klt reverse l) (map snd l).
Proof.
  unfold sort_decorated. apply Permutation_map. destruct reverse.
  - rewrite <- Permutation_rev, stable_sort_Permutation.
    symmetry. apply Permutation_rev.
  - apply stable_sort_Permutation.
Qed.

Lemma insert_by_HdRel (x y : K * A) l :
  ascending y x -> HdRel ascending y l -> HdRel ascending y (insert_by klt x l).
Proof.
  intros Hyx Hl. destruct l as [|z r]; simpl.
  - now constructor.
  - destruct (klt (fst z) (fst x)); constructor; auto.
    now inversion Hl.
Qed.

Lemma insert_by_Sorted (x : K * A) l :
  Sorted ascending l -> Sorted ascending (insert_by klt x l).
Proof.
  induction 1 as [|y r Hs IH Hhd]; simpl.
  - repeat constructor.
  - destruct (klt (fst y) (fst x)) eqn:E.
    + constructor; auto. apply insert_by_HdRel; auto.
      unfold ascending. now apply klt_asym.
    + constructor; [now constructor|]. constructor. exact E.
Qed.

Lemma stable_sort_Sorted l : Sorted ascending (stable_sort klt l).
Proof.
  induction l as [|x r IH]; simpl; [constructor|].
  now apply insert_by_Sorted.
Qed.

Lemma Sorted_adjacent (R : K * A -> K * A -> Prop) l a b :
  Sorted R l -> adjacent a b l -> R a b.
Proof.
  intros Hs (l1 & l2 & ->). induction l1 as [|x l1 IH]; simpl in Hs.
  - inversion Hs as [|? ? _ Hhd]; subst. now inversion Hhd.
  - apply IH. now inversion Hs.
Qed.

(** Neighbours in the output of [sorted]: their keys, as computed before
    the sort, are in order. *)
Lemma sort_decorated_adjacent reverse (kl : list (K * A)) (a b : A) :
  adjacent a b (sort_decorated klt reverse kl) ->
  exists ka kb, In (ka, a) kl /\ In (kb, b) kl /\
    adjacent (ka, a) (kb, b) (if reverse then rev (stable_sort klt (rev kl))
                               else stable_sort klt kl) /\
    (if reverse then klt ka kb else klt kb ka) = false.
Proof.
  unfold sort_decorated. intros Hadj.
  apply adjacent_map in Hadj. destruct Hadj as ([ka a'] & [kb b'] & -> & -> & Hadj).
  simpl. exists ka, kb.
  assert (Hin := adjacent_In _ _ _ Hadj).
  destruct reverse.
  - repeat split; auto.
    + apply in_rev. rewrite <- in_rev in Hin.
      eapply Permutation_in; [apply stable_sort_Permutation | apply Hin].
    + apply in_rev. rewrite <- (in_rev _ (kb, b')) in Hin.
      eapply Permutation_in; [apply stable_sort_Permutation | apply Hin].
    + apply adjacent_rev in Hadj.
      apply (Sorted_adjacent ascending) in Hadj; auto using stable_sort_Sorted.
  - repeat split; auto.
    + eapply Permutation_in; [apply stable_sort_Permutation | apply Hin].
    + eapply Permutation_in; [apply stable_sort_Permutation | apply Hin].
    + apply (Sorted_adjacent ascending) in Hadj; auto using stable_sort_Sorted.
Qed.

Lemma py_sorted_Permutation (key : A -> K) reverse (xs : list A) :
  Permutation (py_sorted klt key reverse xs) xs.
Proof.
  unfold py_sorted. rewrite sort_decorated_Permutation.
  rewrite map_map. simpl. now rewrite map_id.
Qed.

Lemma decorate_Returned (key : A -> outcome K) (xs : list A) kl :
  decorate key xs = Returned kl ->
  map snd kl = xs /\ Forall (fun kx => key (snd kx) = Returned (fst kx)) kl.
Proof.
  revert kl. induction xs as [|x r IH]; simpl; intros kl E.
  - injection E as <-. auto.
  - destruct (key x) as [k| |] eqn:Ek; simpl in E; try discriminate.
    destruct (decorate key r) as [kr| |]; simpl in E; try discriminate.
    injection E as <-. destruct (IH kr eq_refl) as [E1 E2]. simpl.
    split; [now f_equal | now constructor].
Qed.

Lemma decorate_Raised (key : A -> outcome K) (xs : list A) :
  Forall (fun x => (exists k, key x = Returned k) \/ key x = Raised ValueError) xs ->
  Exists (fun x => key x = Raised ValueError) xs ->
  decorate key xs = Raised ValueError.
Proof.
  induction 1 as [|x r [[k Ek]|Ek] _ IH]; intros Hex; simpl.
  - inversion Hex.
  - rewrite Ek. cbn [bind].
    inversion Hex as [? ? Hx|? ? Hr]; subst; [congruence|].
    now rewrite IH.
  - now rewrite Ek.
Qed.

Lemma decorate_total (key : A -> outcome K) (xs : list A) :
  Forall (fun x => exists k, key x = Returned k) xs ->
  exists kl, decorate key xs = Returned kl.
Proof.
  induction 1 as [|x r [k Ek] _ [kr IH]]; simpl.
  - now exists [].
  - rewrite Ek, IH. simpl. now eexists.
Qed.
End SortedFacts.

(** ** Totals by name *)

Section ByNameFacts.
Context {P : Type} `{Number P}.
Implicit Types (items : list (MarketItem P)) (totals : dict (P * nat)).

Lemma by_name_step_keys totals item n :
  In n (keys (by_name_step totals item)) <-> In n (keys totals) \/ n = name item.
Proof.
  unfold by_name_step. destruct (dict_get totals (name item)) as [[tp c]|];
    apply In_keys_dict_set.
Qed.

Lemma by_name_step_NoDup totals item :
  NoDup (keys totals) -> NoDup (keys (by_name_step totals item)).
Proof.
  unfold by_name_step. destruct (dict_get totals (name item)) as [[tp c]|];
    apply NoDup_keys_dict_set.
Qed.

Lemma by_name_loop_NoDup items totals :
  NoDup (keys totals) -> NoDup (keys (fold_left by_name_step items totals)).
Proof.
  revert totals. induction items as [|x r IH]; simpl; auto using by_name_step_NoDup.
Qed.

Lemma by_name_loop_keys items totals n :
  In n (keys (fold_left by_name_step items totals)) <->
  In n (keys totals) \/ In n (map name items).
Proof.
  revert totals. induction items as [|x r IH]; simpl; intros totals.
  - tauto.
  - rewrite IH, by_name_step_keys. intuition congruence.
Qed.

Lemma prices_named_snoc n items x :
  prices_named n (items ++ [x]) =
  prices_named n items ++ (if String.eqb (name x) n then [price x] else []).
Proof.
  unfold prices_named. rewrite filter_app, map_app. simpl.
  now destruct (String.eqb (name x) n).
Qed.

(** The loop keeps, for each name, the running sum and the running count. *)
Lemma by_name_loop_entry items n :
  dict_get (fold_left by_name_step items []) n = summary_entry (prices_named n items).
Proof.
  induction items as [|x items IH] using rev_ind; [reflexivity|].
  rewrite fold_left_app, prices_named_snoc. simpl.
  set (totals := fold_left by_name_step items []) in *.
  unfold by_name_step.
  destruct (String.eqb_spec (name x) n) as [->|Hne].
  - rewrite IH. destruct (prices_named n items) as [|p ps]; simpl.
    + now rewrite dict_get_set_same.
    + rewrite dict_get_set_same, fold_left_app. simpl.
      rewrite length_app. reflexivity.
  - rewrite app_nil_r, <- IH.
    destruct (dict_get totals (name x)) as [[tp c]|];
      now rewrite dict_get_set_other by congruence.
Qed.

(** The sorted pairs have distinct keys, so [dict] keeps them as they are. *)
Lemma get_total_price_by_name_sorted items :
  get_total_price_by_name items =
  py_sorted ltb (fun x => fst (snd x)) true (fold_left by_name_step items []).
Proof.
  unfold get_total_price_by_name. apply dict_from_items_NoDup.
  eapply Permutation_NoDup.
  - apply Permutation_map. symmetry. apply py_sorted_Permutation.
  - apply by_name_loop_NoDup. constructor.
Qed.

Lemma get_total_price_by_name_Permutation items :
  Permutation (get_total_price_by_name items) (fold_left by_name_step items []).
Proof. rewrite get_total_price_by_name_sorted. apply py_sorted_Permutation. Qed.

Lemma by_name_step_counts totals item :
  sum_of_counts (by_name_step totals item) = S (sum_of_counts totals) /\
  (Forall (fun e => (1 <= snd (snd e))%nat) totals ->
   Forall (fun e => (1 <= snd (snd e))%nat) (by_name_step totals item)).
Proof.
  unfold by_name_step, sum_of_counts.
  induction totals as [|[k [tp c]] r IH]; simpl.
  - split; [reflexivity | repeat constructor].
  - destruct (String.eqb_spec k (name item)) as [->|Hne]; simpl.
    + split; [lia|]. intros Hall. inversion Hall; subst.
      constructor; simpl; auto. lia.
    + destruct (dict_get r (name item)) as [[tp' c']|]; simpl;
        rewrite (proj1 IH); (split; [lia|]); intros Hall; inversion Hall; subst;
        constructor; auto; now apply IH.
Qed.

Lemma by_name_loop_counts items totals :
  sum_of_counts (fold_left by_name_step items totals)
  = (sum_of_counts totals + List.length items)%nat /\
  (Forall (fun e => (1 <= snd (snd e))%nat) totals ->
   Forall (fun e => (1 <= snd (snd e))%nat) (fold_left by_name_step items totals)).
Proof.
  revert totals. induction items as [|x r IH]; simpl; intros totals.
  - split; [lia | auto].
  - destruct (IH (by_name_step totals x)) as [E Hall].
    destruct (by_name_step_counts totals x) as [E' Hall'].
    rewrite E, E'. split; [lia | auto].
Qed.
End ByNameFacts.

(** ** Exact arithmetic *)

Section ExactFacts.
Context {P : Type} `{Number P}.
Hypothesis exact : ExactAdd P.
Implicit Types (items : list (MarketItem P)) (totals : dict (P * nat)).

Lemma add_zero_r (a : P) : add a zero = a.
Proof. rewrite (add_comm P exact). apply (add_zero_l P exact). Qed.

Lemma fold_left_add_exact (l : list P) (a : P) :
  fold_left add l a = add a (exact_sum l).
Proof.
  revert a. induction l as [|x r IH]; simpl; intros a.
  - now rewrite add_zero_r.
  - now rewrite IH, (add_assoc P exact).
Qed.

Lemma py_sum_exact (l : list P) : py_sum l = exact_sum l.
Proof.
  unfold py_sum. rewrite fold_left_add_exact. apply (add_zero_l P exact).
Qed.

Lemma exact_sum_Permutation (l l' : list P) :
  Permutation l l' -> exact_sum l = exact_sum l'.
Proof.
  induction 1 as [|x l l' _ IH|x y l|l l' l'' _ IH1 _ IH2]; simpl.
  - reflexivity.
  - now rewrite IH.
  - rewrite !(add_assoc P exact). f_equal. apply (add_comm P exact).
  - congruence.
Qed.

Lemma by_name_step_exact totals item :
  exact_sum (map (fun e => fst (snd e)) (by_name_step totals item))
  = add (exact_sum (map (fun e => fst (snd e)) totals)) (price item).
Proof.
  unfold by_name_step. induction totals as [|[k [tp c]] r IH]; simpl.
  - apply (add_comm P exact).
  - destruct (String.eqb_spec k (name item)) as [->|Hne]; simpl.
    + rewrite <- !(add_assoc P exact). f_equal. apply (add_comm P exact).
    + rewrite <- (add_assoc P exact), <- IH.
      now destruct (dict_get r (name item)) as [[tp' c']|].
Qed.

Lemma by_name_loop_exact items totals :
  exact_sum (map (fun e => fst (snd e)) (fold_left by_name_step items totals))
  = add (exact_sum (map (fun e => fst (snd e)) totals)) (exact_sum (map price items)).
Proof.
  revert totals. induction items as [|x r IH]; simpl; intros totals.
  - now rewrite add_zero_r.
  - now rewrite IH, by_name_step_exact, (add_assoc P exact).
Qed.
End ExactFacts.

Lemma sum_in_order_exact {P : Type} `{Number P} (exact : ExactAdd P) (l : list P) :
  sum_in_order l = exact_sum l.
Proof.
  destruct l as [|p ps]; [reflexivity|]. simpl.
  apply (fold_left_add_exact exact).
Qed.

Lemma int_ExactAdd : ExactAdd Z.
Proof. split; simpl; intros; lia. Qed.

Lemma int_TotalOrder : TotalOrder Z.
Proof. split; simpl; intros; lia. Qed.

Lemma int_Comparison : Comparison Z.
Proof. split; simpl; intros; lia. Qed.



Lemma list_sum_Permutation (l l' : list nat) :
  Permutation l l' -> list_sum l = list_sum l'.
Proof. induction 1; simpl; lia. Qed.

(** ** The three operations on the names and the overall total *)

Section ByNameResults.
Context {P : Type} `{Number P}.
Implicit Types (items : list (MarketItem P)).

(** C3. The summary by name is a mapping (no key twice) whose keys are the
    names occurring in the input; each name is mapped to the sum of the
    prices of its records, added in input order, and to their number.  A
    name with a single record is mapped to that record's price and 1. *)
Theorem by_name_entries items n :
  let summary := get_total_price_by_name items in
  dict_get summary n = summary_entry (prices_named n items) /\
  (In n (keys summary) <-> In n (map name items)) /\
  NoDup (keys summary) /\
  (forall p, prices_named n items = [p] -> dict_get summary n = Some (p, 1%nat)).
Proof.
  intros summary.
  assert (Hnd : NoDup (keys (fold_left by_name_step items []))).
  { apply by_name_loop_NoDup. constructor. }
  assert (Hp := get_total_price_by_name_Permutation items). fold summary in Hp.
  assert (Hget : dict_get summary n = summary_entry (prices_named n items)).
  { rewrite <- by_name_loop_entry. apply dict_get_Permutation; auto.
    now symmetry. }
  repeat split.
  - exact Hget.
  - intros Hin. apply (Permutation_in _ (Permutation_map fst Hp)) in Hin.
    apply by_name_loop_keys in Hin. simpl in Hin. tauto.
  - intros Hin. apply (Permutation_in _ (Permutation_map fst (Permutation_sym Hp))).
    apply by_name_loop_keys. auto.
  - eapply Permutation_NoDup; [apply Permutation_map; symmetry; exact Hp | exact Hnd].
  - intros p Hp1. rewrite Hget, Hp1. reflexivity.
Qed.


(** C10. The counts of the summary by name add up to the number of records,
    and no count is below 1. *)
Theorem by_name_counts items :
  sum_of_counts (get_total_price_by_name items) = List.length items /\
  Forall (fun e => (1 <= snd (snd e))%nat) (get_total_price_by_name items).
Proof.
  assert (Hp := get_total_price_by_name_Permutation items).
  destruct (by_name_loop_counts items []) as [E Hall]. split.
  - unfold sum_of_counts in *.
    rewrite (list_sum_Permutation _ _ (Permutation_map _ Hp)). exact E.
  - specialize (Hall (Forall_nil _)). rewrite Forall_forall in *.
    intros e He. apply Hall. eapply Permutation_in; [exact Hp | exact He].
Qed.

(** C7, for arithmetic that does not round: the total prices of the summary
    by name add up to the overall total price. *)
Theorem by_name_totals_add_up (exact : ExactAdd P) items :
  sum_of_totals (get_total_price_by_name items) = get_total_price items.
Proof.
  unfold sum_of_totals, get_total_price. rewrite !(py_sum_exact exact).
  rewrite (exact_sum_Permutation exact _ _
             (Permutation_map _ (get_total_price_by_name_Permutation items))).
  rewrite (by_name_loop_exact exact). simpl. apply (add_zero_l P exact).
Qed.

(** C6. [get_total_price] adds the prices from left to right, starting from
    zero: it is zero on the empty sequence and a further record adds its
    price; in arithmetic that does not round this is the sum of the prices.
    On the empty sequence both summaries are empty. *)
Theorem get_total_price_sums :
  get_total_price (@nil (MarketItem P)) = zero /\
  (forall items x,
      get_total_price (items ++ [x]) = add (get_total_price items) (price x)) /\
  (ExactAdd P ->
   forall items, get_total_price items = exact_sum (map price items)) /\
  get_total_price_by_name (@nil (MarketItem P)) = [] /\
  (forall fuel, get_total_price_by_month fuel (@nil (MarketItem P)) = Returned []).
Proof.
  repeat split.
  - intros items x. unfold get_total_price, py_sum.
    now rewrite map_app, fold_left_app.
  - intros exact items. now apply py_sum_exact.
Qed.
End ByNameResults.

Lemma by_name_entries_witness :
  prices_named "Case" sample_items = [20] /\
  dict_get (get_total_price_by_name sample_items) "Case" = Some (20, 1%nat).
Proof.
  split; [reflexivity|].
  apply (proj2 (proj2 (proj2 (by_name_entries sample_items "Case")))).
  reflexivity.
Defined.

Lemma get_total_price_sums_witness :
  get_total_price sample_items = 5 + (10 + (7 + (20 + 0))).
Proof.
  exact (proj1 (proj2 (proj2 get_total_price_sums)) int_ExactAdd sample_items).
Defined.



Lemma by_name_totals_add_up_witness :
  sum_of_totals (get_total_price_by_name sample_items) = 42.
Proof.
  rewrite (by_name_totals_add_up int_ExactAdd sample_items). reflexivity.
Defined.

(** Names with equal totals stay in the order of their first record. *)
Lemma by_name_ties :
  get_total_price_by_name tied_items =
  [("Key", (7, 1%nat)); ("Case", (5, 1%nat)); ("Sword", (5, 1%nat))].
Proof. reflexivity. Qed.

(** C7 as stated fails on floats.  The records named a add up to 2^53 (the
    1.0 is rounded away) and the one named b to 1.0; their sum 2^53 + 1.0 is
    rounded to 2^53 again.  The overall total adds 1.0 + 1.0 first and
    reaches 2^53 + 2 without any rounding. *)
Lemma by_name_totals_rounding :
  get_total_price_by_name rounding_items
    = [("a", (9007199254740992%float, 2%nat)); ("b", (1%float, 1%nat))] /\
  sum_of_totals (get_total_price_by_name rounding_items) = 9007199254740992%float /\
  get_total_price rounding_items = 9007199254740994%float /\
  sum_of_totals (get_total_price_by_name rounding_items)
    <> get_total_price rounding_items.
Proof.
  repeat split; try (vm_compute; reflexivity).
  intros E.
  assert (X : PrimFloat.eqb (sum_of_totals (get_total_price_by_name rounding_items))
                (get_total_price rounding_items) = true).
  { rewrite E. vm_compute. reflexivity. }
  vm_compute in X. discriminate X.
Qed.

(** ** Dates and month labels *)

Lemma days_in_month_lower (y m : Z) : 28 <= days_in_month y m.
Proof.
  unfold days_in_month.
  destruct (m =? 2); [destruct (is_leap y)|destruct (_ || _)]; lia.
Qed.

Lemma check_date_fields_first (y m : Z) :
  check_date_fields y m 1 = true <->
  MINYEAR <= y <= MAXYEAR /\ 1 <= m <= 12.
Proof.
  unfold check_date_fields. pose proof (days_in_month_lower y m).
  rewrite !andb_true_iff, !Z.leb_le. lia.
Qed.

Lemma check_date_fields_range (y m d : Z) :
  check_date_fields y m d = true -> MINYEAR <= y <= MAXYEAR /\ 1 <= m <= 12.
Proof.
  unfold check_date_fields. rewrite !andb_true_iff, !Z.leb_le. lia.
Qed.

Lemma digit_value_digit_char (d : Z) :
  0 <= d <= 9 -> digit_value (digit_char d) = Some d.
Proof.
  intros Hd.
  assert (Hcases : d = 0 \/ d = 1 \/ d = 2 \/ d = 3 \/ d = 4 \/
                   d = 5 \/ d = 6 \/ d = 7 \/ d = 8 \/ d = 9) by lia.
  repeat (destruct Hcases as [->|Hcases]; [reflexivity|]).
  subst d. reflexivity.
Qed.

Lemma parse_b_format_b (m : Z) : 1 <= m <= 12 -> parse_b (format_b m) = Some m.
Proof.
  intros Hm.
  assert (Hcases : m = 1 \/ m = 2 \/ m = 3 \/ m = 4 \/ m = 5 \/ m = 6 \/
                   m = 7 \/ m = 8 \/ m = 9 \/ m = 10 \/ m = 11 \/ m = 12) by lia.
  repeat (destruct Hcases as [->|Hcases]; [reflexivity|]).
  subst m. reflexivity.
Qed.

Lemma strptime_Y_b_shape (c3 c2 c1 c0 : ascii) (rest : string) :
  strptime_Y_b (String c3 (String c2 (String c1 (String c0 (String "-" rest))))) =
  match digit_value c3, digit_value c2, digit_value c1, digit_value c0,
        parse_b rest with
  | Some d3, Some d2, Some d1, Some d0, Some m =>
      datetime_new (1000 * d3 + 100 * d2 + 10 * d1 + d0) m 1
  | _, _, _, _, _ => Raised ValueError
  end.
Proof. reflexivity. Qed.

Lemma four_digits (y : Z) :
  0 <= y <= 9999 ->
  1000 * (y / 1000 mod 10) + 100 * (y / 100 mod 10) + 10 * (y / 10 mod 10) + y mod 10 = y.
Proof. intros Hy. Z.div_mod_to_equations. lia. Qed.

Lemma format_Y_long (y : Z) (rest : string) :
  1000 <= y -> format_Y y rest = year_text y rest.
Proof.
  intros Hy. unfold format_Y.
  destruct (Z.ltb_spec y 10); [lia|].
  destruct (Z.ltb_spec y 100); [lia|].
  destruct (Z.ltb_spec y 1000); [lia | reflexivity].
Qed.

(** From the year 1000 on a label is read back. *)
Lemma strptime_strftime_Y_b (d : datetime) :
  1000 <= year d <= MAXYEAR ->
  1 <= month d <= 12 ->
  strptime_Y_b (strftime_Y_b d) = Returned (mk_datetime (year d) (month d) 1).
Proof.
  intros Hy Hm. unfold MAXYEAR in Hy.
  unfold strftime_Y_b. rewrite format_Y_long by lia.
  unfold year_text. rewrite strptime_Y_b_shape.
  rewrite !digit_value_digit_char by (Z.div_mod_to_equations; lia).
  rewrite parse_b_format_b by assumption.
  rewrite four_digits by lia.
  unfold datetime_new.
  now rewrite (proj2 (check_date_fields_first (year d) (month d)))
    by (unfold MINYEAR, MAXYEAR; lia).
Qed.

(** Before the year 1000 the label has fewer than four digits and
    [strptime] refuses it. *)
Lemma strptime_strftime_Y_b_short (d : datetime) :
  year d < 1000 ->
  1 <= month d <= 12 ->
  strptime_Y_b (strftime_Y_b d) = Raised ValueError.
Proof.
  intros Hy Hm. unfold strftime_Y_b, format_Y.
  assert (Hcases : month d = 1 \/ month d = 2 \/ month d = 3 \/ month d = 4 \/
                   month d = 5 \/ month d = 6 \/ month d = 7 \/ month d = 8 \/
                   month d = 9 \/ month d = 10 \/ month d = 11 \/ month d = 12)
    by lia.
  destruct (Z.ltb_spec (year d) 10); [|destruct (Z.ltb_spec (year d) 100);
    [|destruct (Z.ltb_spec (year d) 1000); [|lia]]];
    repeat (destruct Hcases as [->|Hcases]; [reflexivity|]);
    rewrite Hcases; reflexivity.
Qed.

Lemma read_digits_digit (k : Z) (r : string) (acc : Z) :
  0 <= k <= 9 ->
  read_digits (String (digit_char k) r) acc = read_digits r (10 * acc + k).
Proof.
  intros Hk. cbn [read_digits]. now rewrite digit_value_digit_char.
Qed.

Lemma decode_label_strftime_Y_b (d : datetime) :
  0 <= year d <= MAXYEAR ->
  1 <= month d <= 12 ->
  decode_label (strftime_Y_b d) = Some (year d, month d).
Proof.
  intros Hy Hm. unfold MAXYEAR in Hy.
  assert (Hdash : forall acc r,
             read_digits (String "-" r) acc = (acc, String "-" r))
    by reflexivity.
  unfold decode_label, strftime_Y_b, format_Y, year_text.
  destruct (Z.ltb_spec (year d) 10); [|destruct (Z.ltb_spec (year d) 100);
    [|destruct (Z.ltb_spec (year d) 1000)]];
    rewrite !read_digits_digit by (Z.div_mod_to_equations; lia);
    rewrite Hdash, parse_b_format_b by assumption;
    do 2 f_equal; Z.div_mod_to_equations; lia.
Qed.

Lemma month_index_of_index (i : Z) : month_index (month_of_index i) = i.
Proof.
  unfold month_index, month_of_index. simpl. Z.div_mod_to_equations. lia.
Qed.

Lemma month_of_index_cursor (i : Z) :
  13 <= i <= DEC_9999 -> cursor (month_of_index i).
Proof.
  unfold cursor, month_of_index, DEC_9999, MINYEAR, MAXYEAR. simpl. intros Hi.
  Z.div_mod_to_equations. lia.
Qed.

Lemma cursor_of_index (c : datetime) :
  cursor c -> month_of_index (month_index c) = c /\ 13 <= month_index c <= DEC_9999.
Proof.
  destruct c as [y m d]. unfold cursor, month_of_index, month_index, DEC_9999,
    MINYEAR, MAXYEAR. simpl. intros (Hy & Hm & ->). split.
  - f_equal; Z.div_mod_to_equations; lia.
  - lia.
Qed.

(** Labels of different months differ. *)
Lemma month_label_injective (i j : Z) :
  13 <= i <= DEC_9999 -> 13 <= j <= DEC_9999 ->
  strftime_Y_b (month_of_index i) = strftime_Y_b (month_of_index j) -> i = j.
Proof.
  intros Hi Hj E.
  destruct (month_of_index_cursor i Hi) as (Hyi & Hmi & Hdi).
  destruct (month_of_index_cursor j Hj) as (Hyj & Hmj & Hdj).
  unfold MINYEAR in *.
  assert (E' := f_equal decode_label E).
  rewrite !decode_label_strftime_Y_b in E' by lia.
  injection E' as Ey Em. unfold month_of_index in Ey, Em. simpl in Ey, Em.
  Z.div_mod_to_equations. lia.
Qed.

Lemma datetime_compare_Eq (a b : datetime) : datetime_compare a b = Eq -> a = b.
Proof.
  destruct a as [ya ma da], b as [yb mb db]. unfold datetime_compare. simpl.
  destruct (ya ?= yb) eqn:Ey; try discriminate.
  destruct (ma ?= mb) eqn:Em; try discriminate.
  intros Ed. apply Z.compare_eq in Ey, Em, Ed. now subst.
Qed.

Lemma datetime_compare_antisym (a b : datetime) :
  datetime_compare b a = CompOpp (datetime_compare a b).
Proof.
  unfold datetime_compare.
  rewrite (Z.compare_antisym (year a)), (Z.compare_antisym (month a)),
    (Z.compare_antisym (day a)).
  destruct (year a ?= year b); simpl; auto.
  destruct (month a ?= month b); simpl; auto.
Qed.

Lemma datetime_lt_asym (a b : datetime) :
  datetime_lt a b = true -> datetime_lt b a = false.
Proof.
  unfold datetime_lt. rewrite (datetime_compare_antisym a b).
  now destruct (datetime_compare a b).
Qed.

Lemma datetime_lt_total (a b : datetime) :
  datetime_lt b a = false -> a <> b -> datetime_lt a b = true.
Proof.
  unfold datetime_lt. rewrite (datetime_compare_antisym a b).
  destruct (datetime_compare a b) eqn:E; simpl; auto; try discriminate.
  intros _ Hne. now apply datetime_compare_Eq in E.
Qed.

Lemma datetime_le_cursor (c e : datetime) :
  cursor c -> cursor e ->
  datetime_le c e = (month_index c <=? month_index e).
Proof.
  destruct c as [yc mc dc], e as [ye me de].
  unfold cursor, datetime_le, datetime_compare, month_index. simpl.
  intros (Hyc & Hmc & ->) (Hye & Hme & ->).
  destruct (yc ?= ye) eqn:Ey.
  - apply Z.compare_eq in Ey. subst ye.
    destruct (mc ?= me) eqn:Em.
    + apply Z.compare_eq in Em. subst. simpl. symmetry. apply Z.leb_le. lia.
    + rewrite Z.compare_lt_iff in Em. symmetry. apply Z.leb_le. lia.
    + rewrite Z.compare_gt_iff in Em. symmetry. apply Z.leb_gt. lia.
  - rewrite Z.compare_lt_iff in Ey. symmetry. apply Z.leb_le. lia.
  - rewrite Z.compare_gt_iff in Ey. symmetry. apply Z.leb_gt. lia.
Qed.

Lemma replace_day_1 (d c : datetime) :
  replace d None None (Some 1) = Returned c ->
  cursor c /\ month_index c = month_index d /\
  strftime_Y_b c = strftime_Y_b d.
Proof.
  unfold replace, datetime_new.
  destruct (check_date_fields (year d) (month d) 1) eqn:E; [|discriminate].
  intros [= <-]. apply check_date_fields_first in E.
  unfold cursor. simpl. tauto.
Qed.

Lemma replace_day_1_valid (d : datetime) :
  valid_datetime d = true ->
  replace d None None (Some 1) = Returned (mk_datetime (year d) (month d) 1).
Proof.
  unfold valid_datetime, replace, datetime_new. intros Hv.
  apply check_date_fields_range in Hv.
  now rewrite (proj2 (check_date_fields_first _ _) Hv).
Qed.

Lemma next_month_cursor (c : datetime) :
  cursor c ->
  next_month c =
    if month_index c =? DEC_9999 then Raised ValueError
    else Returned (month_of_index (month_index c + 1)).
Proof.
  destruct c as [y m d].
  unfold cursor, next_month, replace, datetime_new, month_index, DEC_9999,
    MINYEAR, MAXYEAR. cbn [year month day].
  intros (Hy & Hm & ->).
  destruct (Z.eqb_spec (y * 12 + m) (9999 * 12 + 12)) as [Ed|Ed];
    destruct (Z.eqb_spec m 12) as [Em|Em]; try lia.
  - destruct (check_date_fields (y + 1) 1 1) eqn:Ec; auto.
    apply check_date_fields_first in Ec. unfold MAXYEAR in Ec. lia.
  - rewrite (proj2 (check_date_fields_first (y + 1) 1))
      by (unfold MINYEAR, MAXYEAR; lia).
    unfold month_of_index. do 2 f_equal; Z.div_mod_to_equations; lia.
  - rewrite (proj2 (check_date_fields_first y (m + 1)))
      by (unfold MINYEAR, MAXYEAR; lia).
    unfold month_of_index. do 2 f_equal; Z.div_mod_to_equations; lia.
Qed.

(** ** Month labels of a span *)

Lemma month_labels_length (from : Z) (n : nat) :
  List.length (month_labels from n) = n.
Proof. unfold month_labels. now rewrite length_map, length_seq. Qed.

Lemma month_labels_S (from : Z) (n : nat) :
  month_labels from (S n) =
  strftime_Y_b (month_of_index from) :: month_labels (from + 1) n.
Proof.
  unfold month_labels. simpl. rewrite Z.add_0_r. f_equal.
  rewrite <- seq_shift, map_map. apply map_ext. intros j.
  do 2 f_equal. lia.
Qed.

Lemma month_labels_In (from : Z) (n : nat) (L : string) :
  In L (month_labels from n) <->
  exists i, from <= i < from + Z.of_nat n /\ L = strftime_Y_b (month_of_index i).
Proof.
  unfold month_labels. rewrite in_map_iff. split.
  - intros (j & <- & Hj). apply in_seq in Hj. exists (from + Z.of_nat j).
    split; [lia | reflexivity].
  - intros (i & Hi & ->). exists (Z.to_nat (i - from)). split.
    + do 2 f_equal. lia.
    + apply in_seq. lia.
Qed.

Lemma month_labels_NoDup (from : Z) (n : nat) :
  13 <= from -> from + Z.of_nat n - 1 <= DEC_9999 ->
  NoDup (month_labels from n).
Proof.
  revert from. induction n as [|n IH]; intros from Hlo Hhi.
  - constructor.
  - rewrite month_labels_S. constructor.
    + intros Hin. apply month_labels_In in Hin. destruct Hin as (i & Hi & E).
      apply month_label_injective in E; lia.
    + apply IH; lia.
Qed.

(** ** Accrual into the buckets *)

Section AccrueFacts.
Context {P : Type} `{Number P}.
Implicit Types (totals : dict (P * nat)) (p : P) (L : string).

Lemma dict_set_twice {V : Type} (d : dict V) (k : string) (v v' : V) :
  dict_set (dict_set d k v) k v' = dict_set d k v'.
Proof.
  induction d as [|[k0 v0] r IH]; simpl.
  - now rewrite String.eqb_refl.
  - destruct (String.eqb k0 k) eqn:E; simpl; rewrite E; congruence.
Qed.

Lemma accrue_dict_set p totals L :
  accrue p totals L =
  dict_set totals L (add (fst (bucket totals L)) p, (snd (bucket totals L) + 1)%nat).
Proof.
  unfold accrue, defaultdict_getitem, bucket.
  destruct (dict_get totals L) as [[tp c]|]; simpl; auto using dict_set_twice.
Qed.

Lemma accrue_get_same p totals L :
  dict_get (accrue p totals L) L =
  Some (add (fst (bucket totals L)) p, (snd (bucket totals L) + 1)%nat).
Proof. rewrite accrue_dict_set. apply dict_get_set_same. Qed.

Lemma accrue_get_other p totals L L' :
  L' <> L -> dict_get (accrue p totals L) L' = dict_get totals L'.
Proof. intros. rewrite accrue_dict_set. now apply dict_get_set_other. Qed.

Lemma accrue_all_keys p labels totals k :
  In k (keys (fold_left (accrue p) labels totals)) <->
  In k (keys totals) \/ In k labels.
Proof.
  revert totals. induction labels as [|L r IH]; simpl; intros totals.
  - tauto.
  - rewrite IH, accrue_dict_set, In_keys_dict_set. intuition congruence.
Qed.

Lemma accrue_all_NoDup p labels totals :
  NoDup (keys totals) -> NoDup (keys (fold_left (accrue p) labels totals)).
Proof.
  revert totals. induction labels as [|L r IH]; simpl; intros totals Hnd; auto.
  apply IH. rewrite accrue_dict_set. now apply NoDup_keys_dict_set.
Qed.

Lemma accrue_all_get_other p labels totals L :
  ~ In L labels ->
  dict_get (fold_left (accrue p) labels totals) L = dict_get totals L.
Proof.
  revert totals. induction labels as [|x r IH]; simpl; intros totals Hnotin; auto.
  rewrite IH by tauto. apply accrue_get_other. intros ->. tauto.
Qed.

Lemma accrue_all_get_same p labels totals L :
  NoDup labels -> In L labels ->
  dict_get (fold_left (accrue p) labels totals) L =
  Some (add (fst (bucket totals L)) p, (snd (bucket totals L) + 1)%nat).
Proof.
  revert totals. induction labels as [|x r IH]; simpl; intros totals Hnd Hin.
  - contradiction.
  - inversion Hnd as [|? ? Hx Hr]; subst. destruct Hin as [->|Hin].
    + rewrite accrue_all_get_other by assumption. apply accrue_get_same.
    + rewrite IH by assumption. unfold bucket.
      rewrite accrue_get_other; [reflexivity|]. intros ->. contradiction.
Qed.

(** What the [while] loop does from a first-of-month cursor, with [n] the
    number of months from the cursor to the end, both included: without
    enough fuel it is cut short; on reaching December 9999 the cursor update
    raises; otherwise the [n] months are accrued in turn. *)
Lemma month_walk_run (n fuel : nat) p (current end_ : datetime) totals :
  cursor current -> cursor end_ ->
  n = Z.to_nat (month_index end_ - month_index current + 1) ->
  month_walk fuel p current end_ totals =
    if (fuel <? n)%nat then OutOfFuel
    else if (0 <? n)%nat && (month_index end_ =? DEC_9999) then Raised ValueError
    else Returned (fold_left (accrue p) (month_labels (month_index current) n) totals).
Proof.
  revert fuel current totals.
  induction n as [|n IH]; intros fuel current totals Hc He Hn.
  - assert (Hle : datetime_le current end_ = false).
    { rewrite datetime_le_cursor by assumption. apply Z.leb_gt. lia. }
    destruct fuel; cbn [month_walk]; now rewrite Hle.
  - assert (Hle : datetime_le current end_ = true).
    { rewrite datetime_le_cursor by assumption. apply Z.leb_le. lia. }
    destruct (cursor_of_index _ Hc) as [Ecur Hcur].
    destruct (cursor_of_index _ He) as [_ Hend].
    destruct fuel as [|fuel]; cbn [month_walk]; rewrite Hle; [reflexivity|].
    rewrite (next_month_cursor _ Hc).
    destruct (Z.eqb_spec (month_index current) DEC_9999) as [Ed|Ed]; cbn [bind].
    + assert (n = 0%nat) by lia. subst n.
      replace (month_index end_ =? DEC_9999) with true
        by (symmetry; apply Z.eqb_eq; lia).
      reflexivity.
    + rewrite (IH fuel (month_of_index (month_index current + 1)));
        [ | apply month_of_index_cursor; lia | assumption
          | rewrite month_index_of_index; lia ].
      rewrite month_index_of_index, month_labels_S, Ecur. cbn [fold_left].
      change (S fuel <? S n)%nat with (fuel <? n)%nat.
      destruct (fuel <? n)%nat; [reflexivity|].
      destruct n as [|n]; simpl; [|reflexivity].
      replace (month_index end_ =? DEC_9999) with false
        by (symmetry; apply Z.eqb_neq; lia).
      reflexivity.
Qed.
End AccrueFacts.

(** ** Totals by month *)

Lemma adjacent_NoDup {B C : Type} (f : B -> C) (a b : B) (l : list B) :
  NoDup (map f l) -> adjacent a b l -> f a <> f b.
Proof.
  intros Hnd (l1 & l2 & ->). rewrite map_app in Hnd. simpl in Hnd.
  apply NoDup_remove_2 in Hnd. intros E. apply Hnd.
  rewrite in_app_iff. right. left. now symmetry.
Qed.

(** A label that [strptime] reads is read as its own month. *)
Lemma is_month_label_parse (k : string) (a : datetime) :
  is_month_label k ->
  strptime_Y_b k = Returned a ->
  exists i, JAN_1000 <= i <= DEC_9999 /\ k = strftime_Y_b (month_of_index i) /\
            a = month_of_index i.
Proof.
  intros (i & Hi & ->) E. exists i.
  destruct (month_of_index_cursor i Hi) as (Hy & Hm & _).
  destruct (Z_lt_dec (year (month_of_index i)) 1000) as [Hshort|Hlong].
  - rewrite strptime_strftime_Y_b_short in E by assumption. discriminate.
  - rewrite strptime_strftime_Y_b in E by lia. injection E as <-.
    split; [|split; reflexivity].
    unfold JAN_1000. unfold month_of_index in Hlong. simpl in Hlong.
    Z.div_mod_to_equations. lia.
Qed.

Lemma is_long_label_parse (k : string) :
  is_long_label k -> exists a, strptime_Y_b k = Returned a.
Proof.
  intros (i & Hi & ->). unfold JAN_1000, DEC_9999, MAXYEAR in Hi.
  assert (Hi' : 13 <= i <= DEC_9999) by (unfold DEC_9999, MAXYEAR; lia).
  destruct (month_of_index_cursor i Hi') as (Hy & Hm & _).
  eexists. apply strptime_strftime_Y_b; [|assumption].
  split; [|apply Hy]. unfold month_of_index. simpl.
  Z.div_mod_to_equations. lia.
Qed.

Section ByMonthFacts.
Context {P : Type} `{Number P}.
Implicit Types (items : list (MarketItem P)) (totals : dict (P * nat)).

(** One record: what the loop body of [get_total_price_by_month] does with
    it, in terms of its number of months. *)
Lemma by_month_step_run fuel totals (item : MarketItem P) :
  valid_datetime (listed_on item) = true ->
  valid_datetime (acted_on item) = true ->
  by_month_step fuel totals item =
    let n := Z.to_nat (span_months item) in
    if (fuel <? n)%nat then OutOfFuel
    else if (0 <? n)%nat && (month_index (acted_on item) =? DEC_9999)
         then Raised ValueError
    else Returned (fold_left (accrue (price item))
                     (month_labels (month_index (listed_on item)) n) totals).
Proof.
  intros Hl Ha. unfold by_month_step.
  rewrite (replace_day_1_valid _ Hl), (replace_day_1_valid _ Ha). cbn [bind].
  apply check_date_fields_range in Hl, Ha.
  rewrite (month_walk_run (Z.to_nat (span_months item)));
    unfold cursor; simpl; tauto.
Qed.

Lemma by_month_step_Returned fuel totals (item : MarketItem P) totals' :
  by_month_step fuel totals item = Returned totals' ->
  exists from n,
    (n <= fuel)%nat /\ 13 <= from /\ from + Z.of_nat n - 1 <= DEC_9999 /\
    totals' = fold_left (accrue (price item)) (month_labels from n) totals.
Proof.
  unfold by_month_step.
  destruct (replace (listed_on item) None None (Some 1)) as [c| |] eqn:Ec;
    try discriminate.
  destruct (replace (acted_on item) None None (Some 1)) as [e| |] eqn:Ee;
    try discriminate.
  cbn [bind]. apply replace_day_1 in Ec, Ee.
  destruct Ec as (Hc & _ & _), Ee as (He & _ & _).
  rewrite (month_walk_run _ _ _ _ _ _ Hc He eq_refl).
  set (n := Z.to_nat (month_index e - month_index c + 1)).
  destruct (Nat.ltb_spec fuel n); [discriminate|].
  destruct ((0 <? n)%nat && (month_index e =? DEC_9999)); [discriminate|].
  intros [= <-]. exists (month_index c), n.
  destruct (cursor_of_index _ Hc) as [_ Hci], (cursor_of_index _ He) as [_ Hei].
  repeat split; auto; lia.
Qed.

(** A record that is processed without an exception is accrued in the
    months from its listing to its sale, which all are months a [datetime]
    can hold. *)
Lemma by_month_step_Returned_span fuel totals (item : MarketItem P) totals' :
  by_month_step fuel totals item = Returned totals' ->
  13 <= month_index (listed_on item) <= DEC_9999 /\
  13 <= month_index (acted_on item) <= DEC_9999 /\
  (Z.to_nat (span_months item) <= fuel)%nat /\
  totals' = fold_left (accrue (price item))
              (month_labels (month_index (listed_on item))
                 (Z.to_nat (span_months item))) totals.
Proof.
  unfold by_month_step.
  destruct (replace (listed_on item) None None (Some 1)) as [c| |] eqn:Ec;
    try discriminate.
  destruct (replace (acted_on item) None None (Some 1)) as [e| |] eqn:Ee;
    try discriminate.
  cbn [bind]. apply replace_day_1 in Ec, Ee.
  destruct Ec as (Hc & Eci & _), Ee as (He & Eei & _).
  rewrite (month_walk_run _ _ _ _ _ _ Hc He eq_refl).
  destruct (cursor_of_index _ Hc) as [_ Hci], (cursor_of_index _ He) as [_ Hei].
  unfold span_months. rewrite <- Eci, <- Eei.
  set (n := Z.to_nat (month_index e - month_index c + 1)).
  destruct (Nat.ltb_spec fuel n); [discriminate|].
  destruct ((0 <? n)%nat && (month_index e =? DEC_9999)); [discriminate|].
  intros [= <-]. repeat split; auto; lia.
Qed.

Lemma accrue_all_labels (p : P) from n totals :
  13 <= from -> from + Z.of_nat n - 1 <= DEC_9999 ->
  Forall is_month_label (keys totals) ->
  Forall is_month_label (keys (fold_left (accrue p) (month_labels from n) totals)).
Proof.
  intros Hlo Hhi Hall. rewrite Forall_forall in *. intros k Hk.
  apply accrue_all_keys in Hk. destruct Hk as [Hk|Hk]; auto.
  apply month_labels_In in Hk. destruct Hk as (i & Hi & ->).
  exists i. split; [lia | reflexivity].
Qed.

Lemma by_month_loop_Returned fuel items totals totals' :
  by_month_loop fuel items totals = Returned totals' ->
  NoDup (keys totals) -> Forall is_month_label (keys totals) ->
  NoDup (keys totals') /\ Forall is_month_label (keys totals').
Proof.
  revert totals. induction items as [|x r IH]; simpl; intros totals E Hnd Hall.
  - injection E as <-. auto.
  - destruct (by_month_step fuel totals x) as [t| |] eqn:Es; try discriminate.
    cbn [bind] in E. apply by_month_step_Returned in Es.
    destruct Es as (from & n & _ & Hlo & Hhi & ->).
    apply (IH _ E).
    + now apply accrue_all_NoDup.
    + now apply accrue_all_labels.
Qed.

Lemma get_total_price_by_month_Returned fuel items m :
  get_total_price_by_month fuel items = Returned m ->
  exists totals kl,
    by_month_loop fuel items [] = Returned totals /\
    decorate (fun x => strptime_Y_b (fst x)) totals = Returned kl /\
    m = sort_decorated datetime_lt false kl /\
    Permutation m totals /\
    NoDup (keys totals) /\ Forall is_month_label (keys totals).
Proof.
  unfold get_total_price_by_month, py_sorted_raising. intros E.
  destruct (by_month_loop fuel items []) as [totals| |] eqn:El; try discriminate.
  cbn [bind] in E.
  destruct (decorate _ totals) as [kl| |] eqn:Ek; try discriminate.
  cbn [bind] in E. injection E as <-.
  destruct (by_month_loop_Returned _ _ _ _ El) as [Hnd Hlab]; try constructor.
  assert (Hperm : Permutation (sort_decorated datetime_lt false kl) totals).
  { rewrite sort_decorated_Permutation.
    now rewrite (proj1 (decorate_Returned _ _ _ Ek)). }
  rewrite dict_from_items_NoDup.
  - exists totals, kl. repeat split; auto.
  - eapply Permutation_NoDup; [apply Permutation_map; symmetry; exact Hperm|].
    exact Hnd.
Qed.
End ByMonthFacts.

Section ByMonthResults.
Context {P : Type} `{Number P}.
Implicit Types (items : list (MarketItem P)) (totals : dict (P * nat)).

(** C5. Whenever [get_total_price_by_month] returns a summary, every entry
    is followed by one whose label parses to a strictly later month.  The
    position of an entry is thus fixed by its label alone, whatever the
    order of insertion and the amounts. *)
Theorem by_month_chronological fuel items m A B :
  get_total_price_by_month fuel items = Returned m ->
  adjacent A B m ->
  exists a b,
    strptime_Y_b (fst A) = Returned a /\
    strptime_Y_b (fst B) = Returned b /\
    datetime_lt a b = true.
Proof.
  intros E Hadj.
  apply get_total_price_by_month_Returned in E.
  destruct E as (totals & kl & _ & Ek & -> & Hperm & Hnd & Hlab).
  assert (Hne : fst A <> fst B).
  { apply (adjacent_NoDup fst) with (l := sort_decorated datetime_lt false kl); auto.
    eapply Permutation_NoDup; [apply Permutation_map; symmetry; exact Hperm|].
    exact Hnd. }
  apply decorate_Returned in Ek. destruct Ek as [Esnd Hkeys].
  apply sort_decorated_adjacent in Hadj; [|exact datetime_lt_asym].
  destruct Hadj as (a & b & HA & HB & _ & Hlt).
  rewrite Forall_forall in Hkeys, Hlab.
  assert (EA := Hkeys _ HA). assert (EB := Hkeys _ HB). simpl in EA, EB.
  exists a, b. repeat split; auto.
  apply datetime_lt_total; auto. intros ->.
  assert (LA : is_month_label (fst A)).
  { apply Hlab. unfold keys. rewrite <- Esnd, map_map.
    apply (in_map (fun x => fst (snd x))) in HA. exact HA. }
  assert (LB : is_month_label (fst B)).
  { apply Hlab. unfold keys. rewrite <- Esnd, map_map.
    apply (in_map (fun x => fst (snd x))) in HB. exact HB. }
  destruct (is_month_label_parse _ _ LA EA) as (i & _ & EiA & Ei).
  destruct (is_month_label_parse _ _ LB EB) as (j & _ & EjB & Ej).
  apply Hne. rewrite EiA, EjB. congruence.
Qed.

(** C2, amended.  A record whose [acted_on] lies in a month strictly before
    the month of [listed_on] leaves every bucket as it was, and does so with
    no fuel at all: the loop body is never entered. *)
Theorem reversed_span_contributes_nothing fuel totals (item : MarketItem P) :
  valid_datetime (listed_on item) = true ->
  valid_datetime (acted_on item) = true ->
  month_index (acted_on item) < month_index (listed_on item) ->
  by_month_step fuel totals item = Returned totals /\
  by_month_step 0 totals item = Returned totals.
Proof.
  intros Hl Ha Hlt. rewrite !by_month_step_run by assumption. cbv zeta.
  replace (Z.to_nat (span_months item)) with 0%nat
    by (unfold span_months; lia).
  split; now destruct fuel.
Qed.

(** X1. The accrual of one record, where the walk does not run into the end of
    year 9999: a record of [k >= 1] months is processed in exactly [k]
    iterations, which add its price to the buckets of its [k] months, one
    more count each, and leave the other buckets alone. *)
Lemma by_month_step_accrues fuel totals (item : MarketItem P) :
  valid_datetime (listed_on item) = true ->
  valid_datetime (acted_on item) = true ->
  1 <= span_months item ->
  month_index (acted_on item) <> DEC_9999 ->
  let k := Z.to_nat (span_months item) in
  let labels := month_labels (month_index (listed_on item)) k in
  List.length labels = k /\ NoDup labels /\
  ((fuel < k)%nat -> by_month_step fuel totals item = OutOfFuel) /\
  ((k <= fuel)%nat ->
   exists totals',
     by_month_step fuel totals item = Returned totals' /\
     (forall L, In L labels ->
        dict_get totals' L =
        Some (add (fst (bucket totals L)) (price item),
              (snd (bucket totals L) + 1)%nat)) /\
     (forall L, ~ In L labels -> dict_get totals' L = dict_get totals L)).
Proof.
  intros Hl Ha Hk Hend k labels.
  assert (Hnd : NoDup labels).
  { apply check_date_fields_range in Hl, Ha.
    unfold MINYEAR, MAXYEAR in *.
    apply month_labels_NoDup; unfold k, span_months, month_index, DEC_9999,
      MAXYEAR in *; lia. }
  split; [apply month_labels_length|]. split; [exact Hnd|].
  rewrite by_month_step_run by assumption. cbv zeta. fold k. fold labels.
  replace (month_index (acted_on item) =? DEC_9999) with false
    by (symmetry; now apply Z.eqb_neq).
  rewrite andb_false_r. split.
  - intros Hf. apply Nat.ltb_lt in Hf. now rewrite Hf.
  - intros Hf. apply Nat.ltb_ge in Hf. rewrite Hf.
    eexists. split; [reflexivity|]. split.
    + intros L HL. now apply accrue_all_get_same.
    + intros L HL. now apply accrue_all_get_other.
Qed.

(** The [while] loop never runs for ever: from first-of-month cursors it
    needs no more fuel than the number of months from the cursor to the
    end. *)
Lemma month_walk_finite fuel (p : P) (current end_ : datetime) totals :
  cursor current -> cursor end_ ->
  (Z.to_nat (month_index end_ - month_index current + 1) <= fuel)%nat ->
  month_walk fuel p current end_ totals <> OutOfFuel.
Proof.
  intros Hc He Hf. rewrite (month_walk_run _ _ _ _ _ _ Hc He eq_refl).
  apply Nat.ltb_ge in Hf. rewrite Hf.
  now destruct (_ && _).
Qed.

Lemma by_month_loop_returns fuel items totals :
  Forall (walkable fuel) items ->
  Forall is_long_label (keys totals) ->
  exists totals',
    by_month_loop fuel items totals = Returned totals' /\
    Forall is_long_label (keys totals').
Proof.
  intros Hall. revert totals.
  induction Hall as [|x r (Hl & Ha & Hf & Hend) _ IH]; simpl; intros totals Hlab.
  - now eexists.
  - assert (Hrun := by_month_step_run fuel totals x Hl Ha). cbv zeta in Hrun.
    apply Nat.ltb_ge in Hf. rewrite Hf in Hrun.
    replace ((0 <? Z.to_nat (span_months x))%nat
             && (month_index (acted_on x) =? DEC_9999)) with false in Hrun.
    + rewrite Hrun. cbn [bind]. apply IH.
      rewrite Forall_forall in *. intros k Hk.
      apply accrue_all_keys in Hk. destruct Hk as [Hk|Hk]; auto.
      apply month_labels_In in Hk. destruct Hk as (i & Hi & ->).
      exists i. split; [|reflexivity].
      apply check_date_fields_range in Hl, Ha.
      unfold span_months, month_index, JAN_1000, DEC_9999, MINYEAR, MAXYEAR in *.
      destruct Hend as [Hend|[_ Hend]]; lia.
    + symmetry. apply andb_false_iff. destruct Hend as [Hend|[Hend _]].
      * left. apply Nat.ltb_ge. lia.
      * right. now apply Z.eqb_neq.
Qed.

(** Apart from records that end in December 9999 or start before the year
    1000, all is well: with enough fuel for the longest record,
    [get_total_price_by_month] returns. *)
Lemma get_total_price_by_month_returns fuel items :
  Forall (walkable fuel) items ->
  exists m, get_total_price_by_month fuel items = Returned m.
Proof.
  intros Hall. unfold get_total_price_by_month.
  destruct (by_month_loop_returns fuel items [] Hall) as (totals & E & Hlab);
    [constructor|].
  rewrite E. cbn [bind]. unfold py_sorted_raising.
  destruct (decorate_total (A := string * (P * nat))
              (fun x => strptime_Y_b (fst x)) totals) as [kl Ek].
  - rewrite Forall_forall in *. intros x Hx.
    apply is_long_label_parse. apply Hlab. unfold keys. now apply in_map.
  - rewrite Ek. cbn [bind]. now eexists.
Qed.
End ByMonthResults.

Lemma by_month_chronological_witness :
  get_total_price_by_month 3 sample_items =
    Returned [("2023-Dec", (7, 1%nat)); ("2024-Jan", (22, 3%nat));
              ("2024-Feb", (37, 3%nat)); ("2024-Mar", (10, 1%nat))] /\
  exists a b,
    strptime_Y_b "2023-Dec" = Returned a /\
    strptime_Y_b "2024-Jan" = Returned b /\
    datetime_lt a b = true.
Proof.
  split; [reflexivity|].
  apply (by_month_chronological 3 sample_items _
           ("2023-Dec", (7, 1%nat)) ("2024-Jan", (22, 3%nat)) eq_refl).
  exists [], [("2024-Feb", (37, 3%nat)); ("2024-Mar", (10, 1%nat))].
  reflexivity.
Defined.

(** C2 as stated fails: a record acted on ten days before it was listed,
    within March 2024, enters the loop once and adds its price to the bucket
    of that month. *)
Lemma backdated_within_month_accrues :
  datetime_lt (acted_on backdated_item) (listed_on backdated_item) = true /\
  by_month_step 0 [] backdated_item = OutOfFuel /\
  by_month_step 1 [] backdated_item = Returned [("2024-Mar", (10, 1%nat))] /\
  get_total_price_by_month 1 [backdated_item]
    = Returned [("2024-Mar", (10, 1%nat))].
Proof. repeat split. Qed.

Lemma reversed_span_contributes_nothing_witness :
  month_index (acted_on reversed_item) < month_index (listed_on reversed_item) /\
  by_month_step 0 [("2024-Feb", (3, 1%nat))] reversed_item
    = Returned [("2024-Feb", (3, 1%nat))].
Proof.
  split; [reflexivity|].
  apply (reversed_span_contributes_nothing 0 [("2024-Feb", (3, 1%nat))]
           reversed_item); reflexivity.
Defined.

(** C1 fails on a sequence with a record that ends in December 9999.  The
    two months of that record are accrued, then the cursor update asks for
    January 10000 and raises: the call returns no summary, and the record
    after it, of three months, is never looked at. *)
Theorem accrual_lost_at_year_end :
  Forall (fun item => valid_datetime (listed_on item) = true /\
                      valid_datetime (acted_on item) = true)
    [last_months_item; key_item] /\
  span_months last_months_item = 2 /\
  span_months key_item = 3 /\
  forall fuel,
    get_total_price_by_month (S (S fuel)) [last_months_item; key_item]
    = Raised ValueError.
Proof.
  split; [repeat constructor|]. do 2 (split; [reflexivity|]). intros fuel.
  unfold get_total_price_by_month. cbn [by_month_loop].
  now rewrite by_month_step_run.
Qed.

(** C9 fails on a record listed and acted on in December 9999: the loop
    stops after one iteration, but by raising; no fuel makes the call
    return a summary. *)
Theorem no_summary_at_year_end :
  valid_datetime (listed_on last_month_item) = true /\
  valid_datetime (acted_on last_month_item) = true /\
  forall fuel,
    get_total_price_by_month fuel [last_month_item] =
    match fuel with
    | O => OutOfFuel
    | S _ => Raised ValueError
    end.
Proof.
  do 2 (split; [reflexivity|]). intros fuel.
  unfold get_total_price_by_month. cbn [by_month_loop].
  rewrite by_month_step_run by reflexivity.
  now destruct fuel.
Qed.

Lemma by_month_step_accrues_witness :
  by_month_step 3 [("2024-Feb", (3, 1%nat))] key_item
  = Returned [("2024-Feb", (13, 2%nat)); ("2024-Jan", (10, 1%nat));
              ("2024-Mar", (10, 1%nat))] /\
  dict_get [("2024-Feb", (13, 2%nat)); ("2024-Jan", (10, 1%nat));
            ("2024-Mar", (10, 1%nat))] "2024-Feb" = Some (3 + 10, 2%nat).
Proof.
  split; [reflexivity|].
  assert (Hk : 1 <= span_months key_item) by (vm_compute; discriminate).
  assert (Hend : month_index (acted_on key_item) <> DEC_9999) by discriminate.
  destruct (by_month_step_accrues 3 [("2024-Feb", (3, 1%nat))] key_item
              eq_refl eq_refl Hk Hend) as (_ & _ & _ & Hrun).
  destruct (Hrun (le_n 3)) as (totals' & E & Hin & _).
  assert (E' : Returned totals' =
               Returned [("2024-Feb", (13, 2%nat)); ("2024-Jan", (10, 1%nat));
                         ("2024-Mar", (10, 1%nat))])
    by (rewrite <- E; reflexivity).
  injection E' as <-.
  exact (Hin "2024-Feb" (or_intror (or_introl eq_refl))).
Defined.

Lemma get_total_price_by_month_returns_witness :
  exists m, get_total_price_by_month 3 sample_items = Returned m.
Proof.
  apply get_total_price_by_month_returns.
  repeat (apply Forall_cons;
          [ split; [reflexivity|]; split; [reflexivity|];
            split; [vm_compute; lia
                   | right; split; [discriminate | simpl; lia] ] | ]).
  apply Forall_nil.
Defined.

(** ** The end-to-end scenarios of the specification *)

Lemma scenario_one_key :
  get_total_price_by_month 3 [key_item] =
    Returned [("2024-Jan", (10, 1%nat)); ("2024-Feb", (10, 1%nat));
              ("2024-Mar", (10, 1%nat))] /\
  get_total_price_by_month 2 [key_item] = OutOfFuel /\
  get_total_price [key_item] = 10.
Proof. repeat split. Qed.

Lemma scenario_two_swords :
  get_total_price_by_name
    [mk_MarketItem "Sword" 5 "USD" (mk_datetime 2024 1 1) (mk_datetime 2024 1 2);
     mk_MarketItem "Sword" 7 "USD" (mk_datetime 2024 1 1) (mk_datetime 2024 1 2)]
  = [("Sword", (12, 2%nat))].
Proof. reflexivity. Qed.

(** * More on the totals by month *)

Section ByMonthMore.
Context {P : Type} `{Number P}.
Implicit Types (items : list (MarketItem P)) (totals : dict (P * nat)).

Lemma month_labels_spans (item : MarketItem P) (i : Z) :
  13 <= month_index (listed_on item) ->
  month_index (acted_on item) <= DEC_9999 ->
  13 <= i <= DEC_9999 ->
  In (strftime_Y_b (month_of_index i))
     (month_labels (month_index (listed_on item)) (Z.to_nat (span_months item)))
  <-> spans i item = true.
Proof.
  intros Hlo Hhi Hi. unfold spans, span_months.
  rewrite month_labels_In, andb_true_iff, !Z.leb_le. split.
  - intros (j & Hj & E). apply month_label_injective in E; lia.
  - intros Hs. exists i. split; [lia | reflexivity].
Qed.

Lemma by_month_loop_entry fuel items totals totals' (i : Z) :
  by_month_loop fuel items totals = Returned totals' ->
  13 <= i <= DEC_9999 ->
  NoDup (keys totals) ->
  dict_get totals' (strftime_Y_b (month_of_index i)) =
  accrued (dict_get totals (strftime_Y_b (month_of_index i)))
    (prices_in_month i items).
Proof.
  revert totals. induction items as [|x r IH]; simpl; intros totals E Hi Hnd.
  - now injection E as <-.
  - destruct (by_month_step fuel totals x) as [t| |] eqn:Es; try discriminate.
    cbn [bind] in E. apply by_month_step_Returned_span in Es.
    destruct Es as (Hl & Ha & _ & ->).
    rewrite (IH _ E Hi) by now apply accrue_all_NoDup.
    unfold prices_in_month. simpl.
    destruct (spans i x) eqn:Hs.
    + apply month_labels_spans in Hs; try lia.
      rewrite accrue_all_get_same; auto.
      * unfold bucket. simpl.
        destruct (map price (filter (spans i) r)) as [|q qs]; simpl.
        -- reflexivity.
        -- do 2 f_equal. lia.
      * apply month_labels_NoDup; unfold span_months; lia.
    + rewrite accrue_all_get_other; [reflexivity|].
      intros Hin. apply month_labels_spans in Hin; try lia. congruence.
Qed.
End ByMonthMore.

Section ByMonthSums.
Context {P : Type} `{Number P}.
Implicit Types (items : list (MarketItem P)) (totals : dict (P * nat)).

Lemma accrue_counts (p : P) totals (L : string) :
  sum_of_counts (accrue p totals L) = S (sum_of_counts totals) /\
  (Forall (fun e => (1 <= snd (snd e))%nat) totals ->
   Forall (fun e => (1 <= snd (snd e))%nat) (accrue p totals L)).
Proof.
  rewrite accrue_dict_set. unfold sum_of_counts, bucket.
  induction totals as [|[k [tp c]] r IH]; simpl.
  - split; [reflexivity | repeat constructor].
  - destruct (String.eqb_spec k L) as [->|Hne]; simpl.
    + split; [lia|]. intros Hall. inversion Hall; subst.
      constructor; simpl; auto. lia.
    + destruct IH as [IH1 IH2]. rewrite IH1. split; [lia|].
      intros Hall. inversion Hall; subst. constructor; auto.
Qed.

Lemma accrue_all_counts (p : P) labels totals :
  sum_of_counts (fold_left (accrue p) labels totals)
  = (sum_of_counts totals + List.length labels)%nat /\
  (Forall (fun e => (1 <= snd (snd e))%nat) totals ->
   Forall (fun e => (1 <= snd (snd e))%nat) (fold_left (accrue p) labels totals)).
Proof.
  revert totals. induction labels as [|L r IH]; simpl; intros totals.
  - split; [lia | auto].
  - destruct (IH (accrue p totals L)) as [E Hall].
    destruct (accrue_counts p totals L) as [E' Hall'].
    rewrite E, E'. split; [lia | auto].
Qed.

Lemma accruals_cons (x : MarketItem P) items :
  accruals (x :: items) =
  repeat (price x) (Z.to_nat (span_months x)) ++ accruals items.
Proof. reflexivity. Qed.

Lemma by_month_loop_counts fuel items totals totals' :
  by_month_loop fuel items totals = Returned totals' ->
  sum_of_counts totals'
  = (sum_of_counts totals + List.length (accruals items))%nat /\
  (Forall (fun e => (1 <= snd (snd e))%nat) totals ->
   Forall (fun e => (1 <= snd (snd e))%nat) totals').
Proof.
  revert totals. induction items as [|x r IH]; simpl; intros totals E.
  - injection E as <-. split; [lia | auto].
  - destruct (by_month_step fuel totals x) as [t| |] eqn:Es; try discriminate.
    cbn [bind] in E. apply by_month_step_Returned_span in Es.
    destruct Es as (_ & _ & _ & ->).
    destruct (IH _ E) as [E1 Hall1].
    destruct (accrue_all_counts (price x)
                (month_labels (month_index (listed_on x))
                   (Z.to_nat (span_months x))) totals) as [E2 Hall2].
    rewrite E1, E2, month_labels_length.
    fold (accruals r). rewrite length_app, repeat_length.
    split; [lia | auto].
Qed.

Lemma get_total_price_by_month_lookup fuel items m :
  get_total_price_by_month fuel items = Returned m ->
  (forall i, 13 <= i <= DEC_9999 ->
     dict_get m (strftime_Y_b (month_of_index i))
     = month_entry (prices_in_month i items)) /\
  (forall k, In k (keys m) ->
     exists i, 13 <= i <= DEC_9999 /\ k = strftime_Y_b (month_of_index i) /\
               prices_in_month i items <> []) /\
  NoDup (keys m).
Proof.
  intros E. apply get_total_price_by_month_Returned in E.
  destruct E as (totals & kl & El & _ & _ & Hperm & Hnd & Hlab).
  assert (Hget : forall i, 13 <= i <= DEC_9999 ->
            dict_get m (strftime_Y_b (month_of_index i))
            = month_entry (prices_in_month i items)).
  { intros i Hi.
    rewrite (dict_get_Permutation totals m) by (auto; now symmetry).
    rewrite (by_month_loop_entry _ _ _ _ i El Hi) by constructor.
    simpl. now destruct (prices_in_month i items). }
  split; [exact Hget|]. split.
  - intros k Hk.
    assert (Hk' : In k (keys totals)).
    { eapply Permutation_in; [apply Permutation_map; exact Hperm | exact Hk]. }
    rewrite Forall_forall in Hlab. destruct (Hlab _ Hk') as (i & Hi & ->).
    exists i. split; [exact Hi|]. split; [reflexivity|]. intros Hnil.
    specialize (Hget i Hi). rewrite Hnil in Hget. simpl in Hget.
    apply dict_get_None in Hget. contradiction.
  - eapply Permutation_NoDup; [apply Permutation_map; symmetry; exact Hperm|].
    exact Hnd.
Qed.

(** X3. The summary by month, whenever one is returned, is a mapping whose
    keys are the labels of the months in which some record is open (from the
    month of its listing to the month of its sale).  Each such month is
    mapped to the sum, taken from zero in input order, of the prices of the
    records open in it, and to their number. *)
Theorem by_month_entries fuel items m :
  get_total_price_by_month fuel items = Returned m ->
  (forall i, 13 <= i <= DEC_9999 ->
     dict_get m (strftime_Y_b (month_of_index i))
     = month_entry (prices_in_month i items)) /\
  (forall k, In k (keys m) ->
     exists i, 13 <= i <= DEC_9999 /\ k = strftime_Y_b (month_of_index i) /\
               prices_in_month i items <> []) /\
  NoDup (keys m).
Proof. apply get_total_price_by_month_lookup. Qed.

(** X4. In the summary by month the counts add up to the number of accruals,
    one for each month of each record, and no bucket has count 0. *)
Theorem by_month_counts fuel items m :
  get_total_price_by_month fuel items = Returned m ->
  sum_of_counts m = List.length (accruals items) /\
  Forall (fun e => (1 <= snd (snd e))%nat) m.
Proof.
  intros E. apply get_total_price_by_month_Returned in E.
  destruct E as (totals & kl & El & _ & _ & Hperm & _ & _).
  apply by_month_loop_counts in El. destruct El as [E Hall]. split.
  - unfold sum_of_counts in *.
    rewrite (list_sum_Permutation _ _ (Permutation_map _ Hperm)). exact E.
  - specialize (Hall (Forall_nil _)). rewrite Forall_forall in *.
    intros e He. apply Hall. eapply Permutation_in; [exact Hperm | exact He].
Qed.
End ByMonthSums.


(** ** When the totals by month raise *)

Section ByMonthOutcome.
Context {P : Type} `{Number P}.
Implicit Types (items : list (MarketItem P)) (totals : dict (P * nat)).

Lemma ends_in_last_month_dec (item : MarketItem P) :
  {ends_in_last_month item} + {~ ends_in_last_month item}.
Proof.
  unfold ends_in_last_month.
  destruct (Z_le_dec 1 (span_months item));
    destruct (Z.eq_dec (month_index (acted_on item)) DEC_9999); tauto.
Qed.

Lemma by_month_loop_raises fuel items totals :
  Forall (within fuel) items ->
  Exists ends_in_last_month items ->
  by_month_loop fuel items totals = Raised ValueError.
Proof.
  intros Hall. revert totals.
  induction Hall as [|x r (Hl & Ha & Hf) _ IH]; intros totals Hex.
  - inversion Hex.
  - cbn [by_month_loop]. rewrite by_month_step_run by assumption. cbv zeta.
    apply Nat.ltb_ge in Hf. rewrite Hf.
    destruct (ends_in_last_month_dec x) as [[Hk Hend]|Hok].
    + replace (0 <? Z.to_nat (span_months x))%nat with true
        by (symmetry; apply Nat.ltb_lt; lia).
      replace (month_index (acted_on x) =? DEC_9999) with true
        by (symmetry; now apply Z.eqb_eq).
      reflexivity.
    + inversion Hex as [? ? Hx|? ? Hr]; subst; [contradiction|].
      destruct (_ && _); [reflexivity|]. cbn [bind]. now apply IH.
Qed.

Lemma raises_by_month_dec (item : MarketItem P) :
  {raises_by_month item} + {~ raises_by_month item}.
Proof.
  unfold raises_by_month.
  destruct (Z_le_dec 1 (span_months item));
    destruct (Z.eq_dec (month_index (acted_on item)) DEC_9999);
    destruct (Z_lt_dec (year (listed_on item)) 1000); tauto.
Qed.

Lemma by_month_loop_Returned_within fuel items totals :
  Forall (within fuel) items ->
  ~ Exists ends_in_last_month items ->
  exists totals', by_month_loop fuel items totals = Returned totals'.
Proof.
  intros Hall. revert totals.
  induction Hall as [|x r (Hl & Ha & Hf) _ IH]; intros totals Hno.
  - now eexists.
  - cbn [by_month_loop]. rewrite by_month_step_run by assumption. cbv zeta.
    apply Nat.ltb_ge in Hf. rewrite Hf.
    replace ((0 <? Z.to_nat (span_months x))%nat
             && (month_index (acted_on x) =? DEC_9999)) with false.
    + cbn [bind]. apply IH. intros Hex. apply Hno. now right.
    + symmetry. apply andb_false_iff.
      destruct (Z_le_dec 1 (span_months x)) as [Hk|Hk].
      * right. apply Z.eqb_neq. intros Hend. apply Hno. left. now split.
      * left. apply Nat.ltb_ge. lia.
Qed.

(** A record with a month to accrue leaves the label of its first month
    among the keys. *)
Lemma by_month_loop_first_label fuel items totals (item : MarketItem P) :
  by_month_loop fuel items [] = Returned totals ->
  In item items -> 1 <= span_months item ->
  In (strftime_Y_b (month_of_index (month_index (listed_on item)))) (keys totals).
Proof.
  intros E Hin Hk.
  assert (Hr : 13 <= month_index (listed_on item) <= DEC_9999).
  { clear -E Hin Hk. revert E. generalize (@nil (string * (P * nat))).
    induction items as [|x r IH]; [contradiction|]. intros totals0. simpl.
    destruct (by_month_step fuel totals0 x) as [t| |] eqn:Es; try discriminate.
    cbn [bind]. intros E. destruct Hin as [->|Hin]; [|now apply (IH Hin t)].
    apply by_month_step_Returned_span in Es. tauto. }
  destruct (in_dec string_dec
              (strftime_Y_b (month_of_index (month_index (listed_on item))))
              (keys totals)) as [Hkey|Hkey]; [exact Hkey|].
  exfalso. apply dict_get_None in Hkey.
  rewrite (by_month_loop_entry _ _ _ _ _ E Hr) in Hkey by constructor.
  assert (Hp : In (price item) (prices_in_month (month_index (listed_on item)) items)).
  { unfold prices_in_month. apply in_map. apply filter_In. split; [exact Hin|].
    unfold spans, span_months in *. apply andb_true_iff. rewrite !Z.leb_le. lia. }
  destruct (prices_in_month (month_index (listed_on item)) items);
    [contradiction | discriminate].
Qed.

Lemma by_month_outcome fuel items :
  Forall (within fuel) items ->
  (Exists raises_by_month items /\
   get_total_price_by_month fuel items = Raised ValueError) \/
  (~ Exists raises_by_month items /\
   exists m, get_total_price_by_month fuel items = Returned m).
Proof.
  intros Hall.
  destruct (Exists_dec raises_by_month items raises_by_month_dec) as [Hex|Hno].
  - left. split; [exact Hex|]. unfold get_total_price_by_month.
    destruct (Exists_dec ends_in_last_month items ends_in_last_month_dec)
      as [Hend|Hend].
    + now rewrite by_month_loop_raises.
    + destruct (by_month_loop_Returned_within fuel items [] Hall Hend)
        as [totals E].
      rewrite E. cbn [bind]. unfold py_sorted_raising.
      rewrite (decorate_Raised (fun x => strptime_Y_b (fst x)) totals);
        [reflexivity | |].
      * destruct (by_month_loop_Returned _ _ _ _ E) as [_ Hlab];
          try constructor.
        rewrite Forall_forall in *. intros e He.
        destruct (Hlab (fst e)) as (i & Hi & Ei); [now apply in_map|].
        simpl. rewrite Ei.
        destruct (month_of_index_cursor i Hi) as (Hy & Hm & _).
        destruct (Z_lt_dec (year (month_of_index i)) 1000).
        -- right. now apply strptime_strftime_Y_b_short.
        -- left. eexists. apply strptime_strftime_Y_b; [lia | assumption].
      * apply Exists_exists in Hex. destruct Hex as (item & Hin & Hk & Hwhy).
        destruct Hwhy as [Hlast|Hshort].
        { exfalso. apply Hend. apply Exists_exists. exists item. now repeat split. }
        pose proof (by_month_loop_first_label _ _ _ _ E Hin Hk) as Hkey.
        apply in_map_iff in Hkey. destruct Hkey as (e & Ee & He).
        apply Exists_exists. exists e. split; [exact He|]. simpl. rewrite Ee.
        rewrite Forall_forall in Hall. destruct (Hall _ Hin) as (Hl & _ & _).
        apply check_date_fields_range in Hl.
        apply strptime_strftime_Y_b_short; unfold month_of_index, month_index;
          simpl; unfold MINYEAR in *; Z.div_mod_to_equations; lia.
  - right. split; [exact Hno|]. apply get_total_price_by_month_returns.
    rewrite Forall_forall in *. intros x Hx.
    destruct (Hall x Hx) as (Hl & Ha & Hf). repeat split; auto.
    destruct (Z_le_dec (span_months x) 0) as [Hk|Hk]; [now left|right].
    split.
    + intros Hend. apply Hno. apply Exists_exists. exists x.
      split; [exact Hx|]. split; [lia | now left].
    + destruct (Z_lt_dec (year (listed_on x)) 1000) as [Hs|Hs]; [|lia].
      exfalso. apply Hno. apply Exists_exists. exists x.
      split; [exact Hx|]. split; [lia | now right].
Qed.
End ByMonthOutcome.

(** X2. For float prices and records with proper dates, with fuel for the
    longest of them, [get_total_price_by_month] raises [ValueError] exactly
    when some record with at least one month to accrue either is acted on
    in December 9999 (the cursor cannot move on) or is listed before the
    year 1000 (its label has fewer than four digits and is not read back
    for the sort); in every other case it returns a summary.  It never
    comes to the end of the fuel. *)
Theorem by_month_raises_exactly fuel (items : list (MarketItem float)) :
  Forall (within fuel) items ->
  (Exists raises_by_month items /\
   get_total_price_by_month fuel items = Raised ValueError) \/
  (~ Exists raises_by_month items /\
   exists m, get_total_price_by_month fuel items = Returned m).
Proof. apply by_month_outcome. Qed.

Lemma by_month_raises_exactly_witness :
  (exists m, get_total_price_by_month 3 float_items = Returned m) /\
  get_total_price_by_month 1 [year_999_item] = Raised ValueError.
Proof.
  split.
  - destruct (by_month_raises_exactly 3 float_items) as [[_ E]|[_ E]].
    + repeat (apply Forall_cons;
              [ split; [reflexivity|]; split; [reflexivity|]; vm_compute; lia | ]).
      apply Forall_nil.
    + discriminate E.
    + exact E.
  - destruct (by_month_raises_exactly 1 [year_999_item]) as [[_ E]|[Hno _]].
    + repeat (apply Forall_cons;
              [ split; [reflexivity|]; split; [reflexivity|]; vm_compute; lia | ]).
      apply Forall_nil.
    + exact E.
    + exfalso. apply Hno. apply Exists_cons_hd.
      split; [vm_compute; discriminate | right; simpl; lia].
Defined.

(** C8 fails on the months of the years before 1000.  The label of March
    999 is written with three digits, and reading it back with the same
    format raises; a record of that year, which [read_file] loads from
    "05 Mar 0999", makes [get_total_price_by_month] raise in its sort for
    whatever number of iterations it is allowed. *)
Theorem short_label_not_read_back :
  strftime_Y_b (mk_datetime 999 3 1) = "999-Mar" /\
  strptime_Y_b "999-Mar" = Raised ValueError /\
  read_file_date (Some "05 Mar 0999") = Loaded (listed_on year_999_item) /\
  forall fuel,
    get_total_price_by_month fuel [year_999_item] =
    match fuel with
    | O => OutOfFuel
    | S _ => Raised ValueError
    end.
Proof.
  split; [reflexivity|]. split; [vm_compute; reflexivity|].
  split; [vm_compute; reflexivity|].
  intros [|fuel]; [vm_compute; reflexivity|].
  destruct (by_month_outcome (S fuel) [year_999_item]) as [[_ E]|[Hno _]].
  - apply Forall_cons; [|apply Forall_nil].
    split; [reflexivity|]. split; [reflexivity|].
    change (1 <= S fuel)%nat. lia.
  - exact E.
  - exfalso. apply Hno. apply Exists_cons_hd.
    split; [vm_compute; discriminate | right; simpl; lia].
Qed.

Lemma by_month_entries_witness :
  dict_get [("2023-Dec", (7, 1%nat)); ("2024-Jan", (22, 3%nat));
            ("2024-Feb", (37, 3%nat)); ("2024-Mar", (10, 1%nat))] "2024-Feb"
  = Some (0 + 10 + 7 + 20, 3%nat).
Proof.
  exact (proj1 (by_month_entries 3 sample_items _ eq_refl)
           (2024 * 12 + 2) ltac:(unfold DEC_9999, MAXYEAR; lia)).
Defined.

Lemma by_month_counts_witness :
  sum_of_counts [("2023-Dec", (7, 1%nat)); ("2024-Jan", (22, 3%nat));
                 ("2024-Feb", (37, 3%nat)); ("2024-Mar", (10, 1%nat))]
  = (1 + 3 + 3 + 1)%nat.
Proof.
  exact (proj1 (by_month_counts 3 sample_items _ eq_refl)).
Defined.

(** ** Lists in a strict order *)

Lemma adjacent_Sorted {A : Type} (R : A -> A -> Prop) (l : list A) :
  (forall a b, adjacent a b l -> R a b) -> Sorted R l.
Proof.
  induction l as [|x r IH]; intros Hadj; constructor.
  - apply IH. intros a b (l1 & l2 & ->). apply Hadj. now exists (x :: l1), l2.
  - destruct r as [|y r']; constructor. apply Hadj. now exists [], r'.
Qed.

(** Two lists with the same elements, both in a strict order, are equal. *)
Lemma sorted_unique {A : Type} (R : A -> A -> Prop) :
  (forall x, ~ R x x) ->
  (forall x y z, R x y -> R y z -> R x z) ->
  forall l l', Sorted R l -> Sorted R l' ->
               (forall x, In x l <-> In x l') -> l = l'.
Proof.
  intros Hirr Htrans l l' Hs Hs'.
  apply Sorted_StronglySorted in Hs, Hs'; try exact Htrans.
  revert l' Hs'. induction Hs as [|x r Hr IH Hx]; intros l' Hs' Hin.
  - destruct l' as [|y r']; [reflexivity|].
    exfalso. apply (Hin y). now left.
  - destruct Hs' as [|y r' Hr' Hy].
    + exfalso. apply (Hin x). now left.
    + rewrite Forall_forall in Hx, Hy.
      assert (E : x = y).
      { destruct (proj1 (Hin x) (or_introl eq_refl)) as [E|Hxr']; [now symmetry|].
        destruct (proj2 (Hin y) (or_introl eq_refl)) as [E|Hyr]; [exact E|].
        exfalso. apply (Hirr x). eapply Htrans; [apply Hx | apply Hy]; eauto. }
      subst y. f_equal. apply IH; auto. intros z. split; intros Hz.
      * destruct (proj1 (Hin z) (or_intror Hz)) as [<-|Hz']; [|exact Hz'].
        exfalso. apply (Hirr x). now apply Hx.
      * destruct (proj2 (Hin z) (or_intror Hz)) as [<-|Hz']; [|exact Hz'].
        exfalso. apply (Hirr x). now apply Hy.
Qed.

Lemma datetime_lt_irrefl (a : datetime) : datetime_lt a a = false.
Proof.
  unfold datetime_lt, datetime_compare. now rewrite !Z.compare_refl.
Qed.

Lemma datetime_lt_trans (a b c : datetime) :
  datetime_lt a b = true -> datetime_lt b c = true -> datetime_lt a c = true.
Proof.
  unfold datetime_lt, datetime_compare.
  destruct (Z.compare_spec (year a) (year b)); try discriminate;
    destruct (Z.compare_spec (year b) (year c)); try discriminate;
    destruct (Z.compare_spec (year a) (year c)); try lia; auto;
    destruct (Z.compare_spec (month a) (month b)); try discriminate;
    destruct (Z.compare_spec (month b) (month c)); try discriminate;
    destruct (Z.compare_spec (month a) (month c)); try lia; auto;
    destruct (Z.compare_spec (day a) (day b)); try discriminate;
    destruct (Z.compare_spec (day b) (day c)); try discriminate;
    destruct (Z.compare_spec (day a) (day c)); try lia; auto.
Qed.

Lemma label_before_irrefl (k : string) : ~ label_before k k.
Proof.
  intros (a & b & Ea & Eb & Hlt). rewrite Ea in Eb. injection Eb as <-.
  now rewrite datetime_lt_irrefl in Hlt.
Qed.

Lemma label_before_trans (k1 k2 k3 : string) :
  label_before k1 k2 -> label_before k2 k3 -> label_before k1 k3.
Proof.
  intros (a & b & Ea & Eb & Hab) (b' & c & Eb' & Ec & Hbc).
  rewrite Eb in Eb'. injection Eb' as <-.
  exists a, c. repeat split; auto. eapply datetime_lt_trans; eauto.
Qed.

Lemma filter_Permutation {A : Type} (f : A -> bool) (l l' : list A) :
  Permutation l l' -> Permutation (filter f l) (filter f l').
Proof.
  induction 1 as [|x l l' _ IH|x y l|l l' l'' _ IH1 _ IH2]; simpl.
  - constructor.
  - destruct (f x); auto.
  - destruct (f x), (f y); auto. apply perm_swap.
  - now transitivity (filter f l').
Qed.

(** ** The totals do not depend on the order of the records *)

Section OrderIndependence.
Context {P : Type} `{Number P}.
Implicit Types (items : list (MarketItem P)) (totals : dict (P * nat)).

Lemma get_total_price_by_month_neighbours fuel items m A B :
  get_total_price_by_month fuel items = Returned m ->
  adjacent A B m -> label_before (fst A) (fst B).
Proof.
  intros E Hadj.
  apply get_total_price_by_month_Returned in E.
  destruct E as (totals & kl & _ & Ek & -> & Hperm & Hnd & Hlab).
  assert (Hne : fst A <> fst B).
  { apply (adjacent_NoDup fst) with (l := sort_decorated datetime_lt false kl); auto.
    eapply Permutation_NoDup; [apply Permutation_map; symmetry; exact Hperm|].
    exact Hnd. }
  apply decorate_Returned in Ek. destruct Ek as [Esnd Hkeys].
  apply sort_decorated_adjacent in Hadj; [|exact datetime_lt_asym].
  destruct Hadj as (a & b & HA & HB & _ & Hlt).
  rewrite Forall_forall in Hkeys, Hlab.
  assert (EA := Hkeys _ HA). assert (EB := Hkeys _ HB). simpl in EA, EB.
  exists a, b. repeat split; auto.
  apply datetime_lt_total; auto. intros ->.
  assert (LA : is_month_label (fst A)).
  { apply Hlab. unfold keys. rewrite <- Esnd, map_map.
    apply (in_map (fun x => fst (snd x))) in HA. exact HA. }
  assert (LB : is_month_label (fst B)).
  { apply Hlab. unfold keys. rewrite <- Esnd, map_map.
    apply (in_map (fun x => fst (snd x))) in HB. exact HB. }
  destruct (is_month_label_parse _ _ LA EA) as (i & _ & EiA & Ei).
  destruct (is_month_label_parse _ _ LB EB) as (j & _ & EjB & Ej).
  apply Hne. rewrite EiA, EjB. congruence.
Qed.

Lemma get_total_price_by_name_lookup items n :
  dict_get (get_total_price_by_name items) n = summary_entry (prices_named n items).
Proof.
  rewrite <- by_name_loop_entry. apply dict_get_Permutation.
  - apply by_name_loop_NoDup. constructor.
  - symmetry. apply get_total_price_by_name_Permutation.
Qed.

Lemma label_counts_included fuel items items' m m' (e : string * nat) :
  Permutation items items' ->
  get_total_price_by_month fuel items = Returned m ->
  get_total_price_by_month fuel items' = Returned m' ->
  In e (label_counts m) -> In e (label_counts m').
Proof.
  intros Hp E E' He. unfold label_counts in *.
  apply in_map_iff in He. destruct He as ([k [t c]] & <- & He). simpl.
  apply get_total_price_by_month_lookup in E, E'.
  destruct E as (Hget & Hkeys & Hnd), E' as (Hget' & _ & Hnd').
  destruct (Hkeys k) as (i & Hi & -> & _).
  { unfold keys. now apply (in_map fst) in He. }
  apply dict_get_In in He; auto. rewrite Hget in He by assumption.
  assert (Hq : Permutation (prices_in_month i items) (prices_in_month i items')).
  { unfold prices_in_month. apply Permutation_map. now apply filter_Permutation. }
  specialize (Hget' i Hi). unfold month_entry in He, Hget'.
  destruct (prices_in_month i items) as [|x r]; [discriminate|].
  destruct (prices_in_month i items') as [|y r'].
  { symmetry in Hq. apply Permutation_nil in Hq. discriminate. }
  injection He as _ <-. change (S (List.length r)) with (List.length (x :: r)).
  rewrite (Permutation_length Hq).
  apply in_map_iff. eexists (_, (_, _)). split; [reflexivity|].
  apply dict_get_In; [exact Hnd'|exact Hget'].
Qed.

Lemma label_counts_neighbours fuel items m (a b : string * nat) :
  get_total_price_by_month fuel items = Returned m ->
  adjacent a b (label_counts m) -> label_before (fst a) (fst b).
Proof.
  intros E Hadj. apply adjacent_map in Hadj.
  destruct Hadj as (A & B & -> & -> & Hadj). simpl.
  now apply (get_total_price_by_month_neighbours fuel items m).
Qed.

(** X6. The months of the summary by month, their order and the number of
    accruals in each do not depend on the order of the records: two
    orderings of the same records give the same labels with the same counts
    in the same order.  (The totals are sums of floats taken in input
    order, and may differ by rounding.) *)
Theorem by_month_order_independent fuel items items' m m' :
  Permutation items items' ->
  get_total_price_by_month fuel items = Returned m ->
  get_total_price_by_month fuel items' = Returned m' ->
  label_counts m = label_counts m'.
Proof.
  intros Hp E E'.
  apply (sorted_unique (fun A B : string * nat => label_before (fst A) (fst B))).
  - intros x. apply label_before_irrefl.
  - intros x y z. apply label_before_trans.
  - apply adjacent_Sorted. intros a b.
    now apply (label_counts_neighbours fuel items).
  - apply adjacent_Sorted. intros a b.
    now apply (label_counts_neighbours fuel items').
  - intros e. split.
    + now apply (label_counts_included fuel items items').
    + apply (label_counts_included fuel items' items); auto. now symmetry.
Qed.

Hypothesis exact : ExactAdd P.

Lemma py_sum_Permutation (l l' : list P) :
  Permutation l l' -> py_sum l = py_sum l'.
Proof.
  intros Hp. rewrite !(py_sum_exact exact). now apply exact_sum_Permutation.
Qed.

Lemma summary_entry_Permutation (l l' : list P) :
  Permutation l l' -> summary_entry l = summary_entry l'.
Proof.
  intros Hp. destruct l as [|x r], l' as [|y r'].
  - reflexivity.
  - apply Permutation_nil in Hp. discriminate.
  - symmetry in Hp. apply Permutation_nil in Hp. discriminate.
  - unfold summary_entry. rewrite !(sum_in_order_exact exact).
    now rewrite (exact_sum_Permutation exact _ _ Hp), (Permutation_length Hp).
Qed.

(** X7. In arithmetic that does not round, neither the overall total nor the
    entry of any name in the summary by name depends on the order of the
    records. *)
Theorem by_name_order_independent items items' :
  Permutation items items' ->
  get_total_price items = get_total_price items' /\
  forall n, dict_get (get_total_price_by_name items) n
            = dict_get (get_total_price_by_name items') n.
Proof.
  intros Hp. split.
  - unfold get_total_price. apply py_sum_Permutation. now apply Permutation_map.
  - intros n. rewrite !get_total_price_by_name_lookup.
    apply summary_entry_Permutation. unfold prices_named.
    apply Permutation_map. now apply filter_Permutation.
Qed.
End OrderIndependence.

Lemma by_month_order_independent_witness :
  Permutation float_items (rev float_items) /\
  label_counts [("2023-Dec", (2.5%float, 1%nat)); ("2024-Jan", (12.5%float, 2%nat));
                ("2024-Feb", (10%float, 1%nat)); ("2024-Mar", (10%float, 1%nat))]
  = [("2023-Dec", 1%nat); ("2024-Jan", 2%nat); ("2024-Feb", 1%nat);
     ("2024-Mar", 1%nat)].
Proof.
  split; [apply Permutation_rev|].
  exact (by_month_order_independent 3 float_items (rev float_items)
           _ _ (Permutation_rev float_items) eq_refl eq_refl).
Defined.

Lemma by_name_order_independent_witness :
  get_total_price (rev sample_items) = 42 /\
  dict_get (get_total_price_by_name (rev sample_items)) "Sword" = Some (12, 2%nat).
Proof.
  destruct (by_name_order_independent int_ExactAdd sample_items (rev sample_items)
              (Permutation_rev sample_items)) as [E1 E2].
  split.
  - rewrite <- E1. reflexivity.
  - rewrite <- E2. reflexivity.
Defined.

(** ** Ties in the summary by name *)

Lemma precedes_cons {A : Type} (a b y : A) (l : list A) :
  precedes a b l -> precedes a b (y :: l).
Proof. intros (l1 & l2 & l3 & ->). now exists (y :: l1), l2, l3. Qed.

Lemma precedes_head {A : Type} (a b : A) (l : list A) :
  In b l -> precedes a b (a :: l).
Proof.
  intros Hin. apply in_split in Hin. destruct Hin as (l2 & l3 & ->).
  now exists [], l2, l3.
Qed.

Lemma precedes_cons_inv {A : Type} (a b y : A) (l : list A) :
  precedes a b (y :: l) -> (a = y /\ In b l) \/ precedes a b l.
Proof.
  intros (l1 & l2 & l3 & E). destruct l1 as [|z l1]; simpl in E.
  - injection E as <- ->. left. split; [reflexivity|].
    rewrite in_app_iff. right. now left.
  - injection E as <- ->. right. now exists l1, l2, l3.
Qed.

Lemma precedes_In {A : Type} (a b : A) (l : list A) :
  precedes a b l -> In a l /\ In b l.
Proof.
  intros (l1 & l2 & l3 & ->). split; apply in_or_app; right.
  - now left.
  - right. apply in_or_app. right. now left.
Qed.

Lemma precedes_nil {A : Type} (a b : A) : ~ precedes a b [].
Proof. intros (l1 & l2 & l3 & E). now destruct l1. Qed.

Lemma precedes_rev {A : Type} (a b : A) (l : list A) :
  precedes a b (rev l) -> precedes b a l.
Proof.
  intros (l1 & l2 & l3 & E). exists (rev l3), (rev l2), (rev l1).
  rewrite <- (rev_involutive l), E.
  rewrite rev_app_distr. simpl. rewrite rev_app_distr. simpl.
  now rewrite <- !app_assoc.
Qed.

Lemma precedes_map {A B : Type} (f : A -> B) (a b : A) (l : list A) :
  precedes a b l -> precedes (f a) (f b) (map f l).
Proof.
  intros (l1 & l2 & l3 & ->). exists (map f l1), (map f l2), (map f l3).
  rewrite map_app. simpl. now rewrite map_app.
Qed.

Lemma precedes_map_inv {A B : Type} (f : A -> B) (a b : B) (l : list A) :
  precedes a b (map f l) ->
  exists a' b', a = f a' /\ b = f b' /\ precedes a' b' l.
Proof.
  intros (l1 & l2 & l3 & E).
  apply map_eq_app in E. destruct E as (m1 & m2 & -> & <- & E).
  apply map_eq_cons in E. destruct E as (a' & m3 & -> & <- & E).
  apply map_eq_app in E. destruct E as (m4 & m5 & -> & <- & E).
  apply map_eq_cons in E. destruct E as (b' & m6 & -> & <- & <-).
  exists a', b'. repeat split. now exists m1, m4, m6.
Qed.

Section Stability.
Context {K A : Type}.
Variable klt : K -> K -> bool.

Lemma insert_by_precedes (x a b : K * A) (l : list (K * A)) :
  precedes a b (insert_by klt x l) ->
  precedes a b l \/ (a = x /\ In b l) \/ (b = x /\ klt (fst a) (fst x) = true).
Proof.
  induction l as [|y r IH]; simpl; intros Hp.
  - apply precedes_cons_inv in Hp. destruct Hp as [[_ []]|Hp].
    now apply precedes_nil in Hp.
  - destruct (klt (fst y) (fst x)) eqn:E.
    + apply precedes_cons_inv in Hp. destruct Hp as [[-> Hb]|Hp].
      * apply (Permutation_in _ (insert_by_Permutation klt x r)) in Hb.
        destruct Hb as [<-|Hb]; [now right; right|].
        left. now apply precedes_head.
      * destruct (IH Hp) as [H1|[[-> Hb]|H3]].
        -- left. now apply precedes_cons.
        -- right. left. split; [reflexivity | now right].
        -- now right; right.
    + apply precedes_cons_inv in Hp. destruct Hp as [[-> Hb]|Hp]; auto.
Qed.

(** The sort is stable: if [a] ends up before [b], it either was before
    [b] or has a strictly smaller key. *)
Lemma stable_sort_precedes (a b : K * A) (l : list (K * A)) :
  precedes a b (stable_sort klt l) ->
  precedes a b l \/ klt (fst a) (fst b) = true.
Proof.
  induction l as [|x r IH]; simpl; intros Hp.
  - now apply precedes_nil in Hp.
  - apply insert_by_precedes in Hp. destruct Hp as [Hp|[[-> Hb]|[-> Hlt]]].
    + destruct (IH Hp) as [H1|H2]; [left; now apply precedes_cons | now right].
    + left. apply precedes_head.
      eapply Permutation_in; [apply stable_sort_Permutation | exact Hb].
    + now right.
Qed.

Lemma py_sorted_precedes (key : A -> K) (a b : A) (l : list A) :
  precedes a b (py_sorted klt key true l) ->
  precedes a b l \/ klt (key b) (key a) = true.
Proof.
  unfold py_sorted, sort_decorated. intros Hp.
  apply precedes_map_inv in Hp. destruct Hp as ([ka a'] & [kb b'] & -> & -> & Hp).
  simpl.
  assert (Hin : forall e, In e (rev (stable_sort klt
                                  (rev (map (fun x => (key x, x)) l)))) ->
                          fst e = key (snd e)).
  { intros e He. apply in_rev in He.
    apply (Permutation_in _ (stable_sort_Permutation klt _)) in He.
    apply in_rev in He. apply in_map_iff in He.
    now destruct He as (x & <- & _). }
  destruct (precedes_In _ _ _ Hp) as [Ha Hb].
  apply Hin in Ha, Hb. simpl in Ha, Hb. subst ka kb.
  apply precedes_rev, stable_sort_precedes in Hp. simpl in Hp.
  destruct Hp as [Hp|Hlt]; [left | now right].
  apply precedes_rev in Hp. apply (precedes_map snd) in Hp.
  rewrite map_map in Hp. simpl in Hp. now rewrite map_id in Hp.
Qed.
End Stability.

Lemma first_seen_snoc (l : list string) (x : string) :
  first_seen (l ++ [x]) =
  if in_dec string_dec x l then first_seen l else first_seen l ++ [x].
Proof.
  induction l as [|y r IH]; simpl; [reflexivity|].
  rewrite IH. destruct (string_dec y x) as [->|Hne].
  - destruct (in_dec string_dec x r); [reflexivity|].
    rewrite filter_app. simpl. rewrite String.eqb_refl. simpl.
    now rewrite app_nil_r.
  - destruct (in_dec string_dec x r); [reflexivity|].
    rewrite filter_app. simpl.
    destruct (String.eqb_spec y x); [contradiction | reflexivity].
Qed.

Section ByNameTies.
Context {P : Type} `{Number P}.
Implicit Types (items : list (MarketItem P)) (totals : dict (P * nat)).

Lemma by_name_step_keys_order totals (item : MarketItem P) :
  keys (by_name_step totals item) =
  if in_dec string_dec (name item) (keys totals) then keys totals
  else keys totals ++ [name item].
Proof.
  unfold by_name_step.
  destruct (in_dec string_dec (name item) (keys totals)) as [Hin|Hin].
  - destruct (dict_get totals (name item)) as [[tp c]|];
      now apply keys_dict_set_present.
  - assert (E := proj2 (dict_get_None totals (name item)) Hin). rewrite E.
    now apply keys_dict_set_absent.
Qed.

(** The loop creates the entries in the order in which the names first
    occur. *)
Lemma by_name_loop_first_seen items :
  keys (fold_left by_name_step items []) = first_seen (map name items).
Proof.
  induction items as [|x items IH] using rev_ind; [reflexivity|].
  rewrite fold_left_app, map_app. cbn [fold_left map].
  rewrite first_seen_snoc, by_name_step_keys_order, IH.
  destruct (in_dec string_dec (name x) (first_seen (map name items))) as [Hin|Hin];
    destruct (in_dec string_dec (name x) (map name items)) as [Hin'|Hin'];
    try reflexivity; exfalso; rewrite <- IH in Hin.
  - apply Hin'. apply by_name_loop_keys in Hin. simpl in Hin. tauto.
  - apply Hin. apply by_name_loop_keys. now right.
Qed.

(** X8. Where prices are totally ordered, the summary by name breaks ties by
    first appearance: an entry that comes before another one either has a
    strictly larger total, or its name occurs first in the input. *)
Theorem by_name_stable (order : TotalOrder P) items A B :
  precedes A B (get_total_price_by_name items) ->
  ltb (fst (snd B)) (fst (snd A)) = true \/
  precedes (fst A) (fst B) (first_seen (map name items)).
Proof.
  rewrite get_total_price_by_name_sorted. intros Hp.
  apply py_sorted_precedes in Hp. destruct Hp as [Hp|Hlt]; [right | now left].
  rewrite <- by_name_loop_first_seen. now apply precedes_map.
Qed.
End ByNameTies.

Lemma by_name_stable_witness :
  precedes "Case" "Sword" ["Case"; "Key"; "Sword"].
Proof.
  destruct (by_name_stable int_TotalOrder tied_items
              ("Case", (5, 1%nat)) ("Sword", (5, 1%nat))) as [Hlt|Hp].
  - exists [("Key", (7, 1%nat))], [], []. reflexivity.
  - discriminate Hlt.
  - exact Hp.
Defined.

(** * The loader *)

Lemma is_space_digit_char (k : Z) : 0 <= k <= 9 -> is_space (digit_char k) = false.
Proof.
  intros Hk.
  assert (Hcases : k = 0 \/ k = 1 \/ k = 2 \/ k = 3 \/ k = 4 \/
                   k = 5 \/ k = 6 \/ k = 7 \/ k = 8 \/ k = 9) by lia.
  repeat (destruct Hcases as [->|Hcases]; [reflexivity|]).
  subst k. reflexivity.
Qed.

Lemma rstrip_all_space (t : string) : all_space t = true -> rstrip t = EmptyString.
Proof.
  induction t as [|c r IH]; simpl; [reflexivity|].
  intros Hs. apply andb_true_iff in Hs. destruct Hs as [Hc Hr].
  now rewrite (IH Hr), Hc.
Qed.

Lemma rstrip_app_space (s t : string) :
  all_space t = true -> rstrip (s ++ t)%string = rstrip s.
Proof.
  intros Ht. induction s as [|c r IH]; simpl.
  - now apply rstrip_all_space.
  - now rewrite IH.
Qed.

Lemma rstrip_app_kept (s t : string) :
  rstrip t = t -> t <> EmptyString -> rstrip (s ++ t)%string = (s ++ t)%string.
Proof.
  intros Ht Hne. induction s as [|c r IH]; simpl; [exact Ht|].
  rewrite IH. destruct (r ++ t)%string eqn:E; [|reflexivity].
  destruct r; simpl in E; [contradiction | discriminate].
Qed.

Lemma lstrip_app_space (s t : string) :
  all_space s = true -> lstrip (s ++ t)%string = lstrip t.
Proof.
  induction s as [|c r IH]; simpl; [reflexivity|].
  intros Hs. apply andb_true_iff in Hs. destruct Hs as [Hc Hr].
  rewrite Hc. now apply IH.
Qed.

Lemma rstrip_year_text (y : Z) :
  0 <= y <= 9999 ->
  rstrip (year_text y EmptyString) = year_text y EmptyString /\
  year_text y EmptyString <> EmptyString.
Proof.
  intros Hy. split; [|discriminate]. unfold year_text. simpl.
  now rewrite (is_space_digit_char (y mod 10)) by (Z.div_mod_to_equations; lia).
Qed.

Lemma year_group_year_text (y : Z) :
  0 <= y <= 9999 -> year_group (year_text y EmptyString) = Some y.
Proof.
  intros Hy. unfold year_text, year_group.
  rewrite !digit_value_digit_char by (Z.div_mod_to_equations; lia).
  now rewrite four_digits.
Qed.

Lemma blanks_year_text (y : Z) :
  0 <= y <= 9999 ->
  blanks (String " " (year_text y EmptyString)) = Some (year_text y EmptyString).
Proof.
  intros Hy. unfold year_text. simpl.
  now rewrite (is_space_digit_char (y / 1000 mod 10))
    by (Z.div_mod_to_equations; lia).
Qed.

Lemma after_day_month (m : Z) (rest : string) :
  1 <= m <= 12 ->
  after_day (String " " (format_b m ++ rest)) =
  match blanks rest with
  | None => None
  | Some s3 =>
      match year_group s3 with
      | None => None
      | Some y => Some (m, y)
      end
  end.
Proof.
  intros Hm.
  assert (Hcases : m = 1 \/ m = 2 \/ m = 3 \/ m = 4 \/ m = 5 \/ m = 6 \/
                   m = 7 \/ m = 8 \/ m = 9 \/ m = 10 \/ m = 11 \/ m = 12) by lia.
  repeat (destruct Hcases as [->|Hcases]; [reflexivity|]).
  subst m. reflexivity.
Qed.

Lemma day_candidates_format_d (pad : bool) (d : Z) (rest : string) :
  1 <= d <= 31 ->
  exists others,
    day_candidates (format_d pad d ++ String " " rest)
    = (d, String " " rest) :: others.
Proof.
  intros Hd. rewrite <- (Z2Nat.id d) by lia.
  assert (Hn : (1 <= Z.to_nat d <= 31)%nat) by lia.
  generalize dependent (Z.to_nat d). intros n Hn.
  destruct n as [|n]; [lia|].
  do 31 (destruct n as [|n]; [destruct pad; eexists; reflexivity|]).
  lia.
Qed.

(** A date written as day, month name and year is read as that date. *)
Lemma strptime_d_b_Y_date_text (pad : bool) (d : datetime) :
  valid_datetime d = true ->
  strptime_d_b_Y (date_text pad d) = Returned d.
Proof.
  intros Hv. destruct d as [y m dd]. unfold valid_datetime in Hv. simpl in Hv.
  assert (Hr := check_date_fields_range _ _ _ Hv).
  assert (Hd : 1 <= dd <= 31).
  { unfold check_date_fields in Hv. rewrite !andb_true_iff, !Z.leb_le in Hv.
    assert (days_in_month y m <= 31).
    { unfold days_in_month.
      destruct (m =? 2); [destruct (is_leap y)|destruct (_ || _)]; lia. }
    lia. }
  unfold MINYEAR, MAXYEAR in Hr.
  unfold strptime_d_b_Y, date_text. cbn [year month day].
  change (String " " (format_b m) ++ String " " (year_text y EmptyString))%string
    with (String " " (format_b m ++ String " " (year_text y EmptyString))).
  destruct (day_candidates_format_d pad dd
              (format_b m ++ String " " (year_text y EmptyString)) Hd)
    as [others ->].
  cbn [first_match].
  rewrite after_day_month, blanks_year_text, year_group_year_text by lia.
  unfold datetime_new. now rewrite Hv.
Qed.

Lemma strip_date_text (pad : bool) (d : datetime) (pre post : string) :
  valid_datetime d = true ->
  all_space pre = true -> all_space post = true ->
  strip (pre ++ date_text pad d ++ post) = date_text pad d.
Proof.
  intros Hv Hpre Hpost. unfold valid_datetime in Hv.
  assert (Hr := check_date_fields_range _ _ _ Hv).
  assert (Hd : 1 <= day d).
  { unfold check_date_fields in Hv. rewrite !andb_true_iff, !Z.leb_le in Hv. lia. }
  unfold MINYEAR, MAXYEAR in Hr.
  destruct (rstrip_year_text (year d)) as [EY NY]; [lia|].
  assert (Ekeep : rstrip (date_text pad d) = date_text pad d /\
                  date_text pad d <> EmptyString).
  { unfold date_text. split.
    - apply rstrip_app_kept; [|discriminate].
      apply (rstrip_app_kept (String " " (format_b (month d))));
        [|discriminate].
      now apply (rstrip_app_kept (String " " EmptyString)).
    - unfold format_d. destruct (day d <? 10), pad; discriminate. }
  destruct Ekeep as [Ekeep Hne].
  unfold strip.
  assert (E1 : rstrip (pre ++ date_text pad d ++ post) = (pre ++ date_text pad d)%string).
  { transitivity (rstrip (pre ++ date_text pad d)).
    - clear -Hpost. induction pre as [|c r IH]; simpl.
      + now apply rstrip_app_space.
      + now rewrite IH.
    - now apply rstrip_app_kept. }
  rewrite E1, lstrip_app_space by assumption.
  unfold date_text, format_d.
  destruct (day d <? 10) eqn:E10, pad; simpl; try reflexivity.
  - now rewrite (is_space_digit_char (day d)) by (apply Z.ltb_lt in E10; lia).
  - rewrite (is_space_digit_char (day d / 10)); [reflexivity|].
    unfold check_date_fields in Hv. rewrite !andb_true_iff, !Z.leb_le in Hv.
    assert (days_in_month (year d) (month d) <= 31).
    { unfold days_in_month.
      destruct (month d =? 2); [destruct (is_leap (year d))|destruct (_ || _)]; lia. }
    Z.div_mod_to_equations. lia.
  - rewrite (is_space_digit_char (day d / 10)); [reflexivity|].
    unfold check_date_fields in Hv. rewrite !andb_true_iff, !Z.leb_le in Hv.
    assert (days_in_month (year d) (month d) <= 31).
    { unfold days_in_month.
      destruct (month d =? 2); [destruct (is_leap (year d))|destruct (_ || _)]; lia. }
    Z.div_mod_to_equations. lia.
Qed.

(** X9. A date field that holds a proper calendar date written as day, month
    name and four-digit year (the day with or without a leading zero, with
    any blanks around the text) is loaded as that date. *)
Theorem read_file_date_text (pad : bool) (d : datetime) (pre post : string) :
  valid_datetime d = true ->
  all_space pre = true -> all_space post = true ->
  read_file_date (Some (pre ++ date_text pad d ++ post)%string) = Loaded d.
Proof.
  intros Hv Hpre Hpost. unfold read_file_date.
  rewrite strip_date_text by assumption.
  now rewrite strptime_d_b_Y_date_text.
Qed.

Lemma read_file_date_text_witness :
  read_file_date (Some "  5 Mar 2024 ") = Loaded (mk_datetime 2024 3 5).
Proof.
  exact (read_file_date_text false (mk_datetime 2024 3 5) "  " " "
           eq_refl eq_refl eq_refl).
Defined.






